(** * The IO grader: a shallow embedding and its verified properties

    The repository holds two versions of one Node.js program, a GitHub
    Classroom grader: the version that scores a hierarchical test report
    (module [Grader]) and the [src/main.js] version (module [MainJs]).
    Both share the line parser [parseGradleTestResults], the comparator
    [compareOutput] and the catch path of [run].

    Conventions of the embedding.
    - A JavaScript string is a [string] of code units below 256.
    - A JavaScript number is an IEEE-754 binary64 value ([spec_float] with
      precision 53 and maximal exponent 1024), computed with the
      operations of [SpecFloat].
    - A thrown exception is a value [Throw e] of the type [Exc].
    - An object used as a dictionary is an association list in insertion
      order, holding own properties only: a path segment that names a
      member of [Object.prototype] (such as [constructor]) is outside the
      embedding, and the properties of the walk and of the parsed tree
      that depend on it are stated for paths and reports without such a
      segment ([plain_path], [plain_report]).
    - What the program gets from its host (action inputs, [execSync], the
      [RegExp] engine on user patterns, [parseFloat], the clock) is a
      parameter. *)

From Stdlib Require Import ZArith List Bool Ascii String Lia.
From Stdlib Require Import Floats.SpecFloat.
Import ListNotations.

Local Open Scope string_scope.

Set Warnings "-register-all".

(** ** JavaScript built-ins used by the program *)

Module JS.

(** *** Numbers *)

Definition number : Type := spec_float.

Definition prec : Z := 53.
Definition emax : Z := 1024.

Definition of_Z (z : Z) : number := binary_normalize prec emax z 0 false.
Definition of_nat (n : nat) : number := of_Z (Z.of_nat n).

Definition NaN : number := S754_nan.
Definition zero : number := S754_zero false.
Definition neg_zero : number := S754_zero true.

Definition mul (x y : number) : number := SFmul prec emax x y.
Definition div (x y : number) : number := SFdiv prec emax x y.
(** [x < y] *)
Definition lt (x y : number) : bool := SFltb x y.
(** [x > y] *)
Definition gt (x y : number) : bool := SFltb y x.
(** [x === y] on numbers *)
Definition strict_eq (x y : number) : bool := SFeqb x y.

(** The literal [0.8]: the binary64 value nearest to 4/5. *)
Definition lit_0_8 : number := S754_finite false 7205759403792794 (-53).

(** *** Characters *)

Definition code (c : ascii) : nat := nat_of_ascii c.

(** WhiteSpace and LineTerminator code units below 256: what [trim]
    removes and what [\s] matches. *)
Definition is_space (c : ascii) : bool :=
  match code c with
  | 9 | 10 | 11 | 12 | 13 | 32 | 160 => true
  | _ => false
  end.

(** LineTerminator code units below 256: what [.] does not match. *)
Definition is_line_terminator (c : ascii) : bool :=
  match code c with
  | 10 | 13 => true
  | _ => false
  end.

(** *** Strings *)

Definition is_empty (s : string) : bool :=
  match s with
  | EmptyString => true
  | String _ _ => false
  end.

(** Truthiness of a string: every string but the empty one. *)
Definition truthy (s : string) : bool := negb (is_empty s).

(** [a || b] on strings. *)
Definition or_else (a b : string) : string := if truthy a then a else b.

Fixpoint trim_start (s : string) : string :=
  match s with
  | EmptyString => EmptyString
  | String c t => if is_space c then trim_start t else s
  end.

Fixpoint trim_end (s : string) : string :=
  match s with
  | EmptyString => EmptyString
  | String c t =>
      let t' := trim_end t in
      if is_space c && is_empty t' then EmptyString else String c t'
  end.

(** [String.prototype.trim] *)
Definition trim (s : string) : string := trim_end (trim_start s).

(** [String.prototype.startsWith] *)
Fixpoint starts_with (p s : string) : bool :=
  match p with
  | EmptyString => true
  | String a p' =>
      match s with
      | EmptyString => false
      | String b s' => Ascii.eqb a b && starts_with p' s'
      end
  end.

(** [String.prototype.includes] *)
Fixpoint includes (s sub : string) : bool :=
  starts_with sub s ||
  match s with
  | EmptyString => false
  | String _ t => includes t sub
  end.

(** [s.split('\n')] *)
Fixpoint split_newline (s : string) : list string :=
  match s with
  | EmptyString => [EmptyString]
  | String c t =>
      if Ascii.eqb c "010"%char then EmptyString :: split_newline t
      else match split_newline t with
           | h :: r => String c h :: r
           | [] => [String c EmptyString]
           end
  end.

(** *** parseInt *)

Definition digit_value (c : ascii) : option Z :=
  let n := code c in
  if (48 <=? n)%nat && (n <=? 57)%nat then Some (Z.of_nat (n - 48))
  else if (97 <=? n)%nat && (n <=? 122)%nat then Some (Z.of_nat (n - 87))
  else if (65 <=? n)%nat && (n <=? 90)%nat then Some (Z.of_nat (n - 55))
  else None.

(** The longest prefix of digits of the radix, read as an integer; the
    second component tells whether a digit was read. *)
Fixpoint read_digits (radix : Z) (s : string) (acc : Z) (seen : bool)
  : Z * bool :=
  match s with
  | EmptyString => (acc, seen)
  | String c t =>
      match digit_value c with
      | Some d =>
          if (d <? radix)%Z then read_digits radix t (radix * acc + d)%Z true
          else (acc, seen)
      | None => (acc, seen)
      end
  end.

(** [parseInt(s)] with no radix argument. *)
Definition parseInt (s : string) : number :=
  let s1 := trim_start s in
  let '(negative, s2) :=
    match s1 with
    | String "-" t => (true, t)
    | String "+" t => (false, t)
    | _ => (false, s1)
    end in
  let '(radix, s3) :=
    match s2 with
    | String "0" (String "x" t) => (16%Z, t)
    | String "0" (String "X" t) => (16%Z, t)
    | _ => (10%Z, s2)
    end in
  let '(value, seen) := read_digits radix s3 0%Z false in
  if negb seen then NaN
  else if (value =? 0)%Z then (if negative then neg_zero else zero)
  else of_Z (if negative then (- value)%Z else value).

End JS.

Arguments JS.of_Z : simpl never.
Arguments JS.of_nat : simpl never.
Arguments JS.mul : simpl never.
Arguments JS.div : simpl never.
Arguments JS.lt : simpl never.
Arguments JS.gt : simpl never.
Arguments JS.strict_eq : simpl never.
Arguments JS.parseInt : simpl never.
Arguments JS.trim : simpl never.
Arguments JS.includes : simpl never.

(** ** Exceptions *)

(** The properties of a thrown [Error] that the program reads
    ([message], [stdout]) and the error code Node sets on it ([code],
    ["ETIMEDOUT"] when [execSync] killed the child after its timeout). *)
Record Thrown : Type := mkThrown {
  message : string;
  stdout : option string;
  code : option string
}.

(** [new Error(msg)], also used for [TypeError] and [SyntaxError]. *)
Definition new_Error (msg : string) : Thrown := mkThrown msg None None.

Inductive Exc (A : Type) : Type :=
| Return (a : A)
| Throw (e : Thrown).

Arguments Return {A} a.
Arguments Throw {A} e.

Definition bind {A B : Type} (m : Exc A) (k : A -> Exc B) : Exc B :=
  match m with
  | Return a => k a
  | Throw e => Throw e
  end.

Notation "x <- m ;; k" := (bind m (fun x => k))
  (at level 61, m at next level, right associativity).

(** ** The hierarchy parser (identical in both versions) *)

(** A value stored in the tree: a boolean leaf or a nested object. *)
Inductive Value : Type :=
| VBool (b : bool)
| VObject (entries : list (string * Value)).

Definition object : Type := list (string * Value).

(** [obj[key]] on own properties; [None] is [undefined]. *)
Fixpoint get (obj : object) (key : string) : option Value :=
  match obj with
  | [] => None
  | (k, v) :: rest => if String.eqb k key then Some v else get rest key
  end.

(** [obj[key] = v]: an existing key keeps its place, a new one goes last. *)
Fixpoint set (obj : object) (key : string) (v : Value) : object :=
  match obj with
  | [] => [(key, v)]
  | (k, w) :: rest =>
      if String.eqb k key then (k, v) :: rest else (k, w) :: set rest key v
  end.

(** [(PASSED|FAILED)] at the start of [s]: the token matched. *)
Definition match_status (s : string) : option string :=
  if JS.starts_with "PASSED" s then Some "PASSED"
  else if JS.starts_with "FAILED" s then Some "FAILED"
  else None.

(** [\s+(PASSED|FAILED)] at the start of [s]: [\s+] takes as many
    characters as it can and gives them back one by one. *)
Fixpoint match_spaces_status (s : string) : option string :=
  match s with
  | EmptyString => None
  | String c t =>
      if JS.is_space c then
        match match_spaces_status t with
        | Some st => Some st
        | None => match_status t
        end
      else None
  end.

(** [(.+)\s+(PASSED|FAILED)] at the start of [s]: [.+] takes as many
    characters as it can (no line terminator) and gives them back one by
    one; the result is the pair of the two groups. *)
Fixpoint match_here (s : string) : option (string * string) :=
  match s with
  | EmptyString => None
  | String c t =>
      if JS.is_line_terminator c then None
      else
        match match_here t with
        | Some (g1, g2) => Some (String c g1, g2)
        | None =>
            match match_spaces_status t with
            | Some g2 => Some (String c EmptyString, g2)
            | None => None
            end
        end
  end.

(** [s.match(/(.+)\s+(PASSED|FAILED)/)]: the first start position, from
    the left, where the pattern matches. *)
Fixpoint line_match (s : string) : option (string * string) :=
  match match_here s with
  | Some m => Some m
  | None =>
      match s with
      | EmptyString => None
      | String _ t => line_match t
      end
  end.

Fixpoint skip_spaces (s : string) : string :=
  match s with
  | EmptyString => EmptyString
  | String c t => if JS.is_space c then skip_spaces t else s
  end.

(** [\s+>\s+] at the start of [s]: the number of characters matched. Each
    [\s+] takes the whole run of white space: after a shorter run the
    next character is white space, and [>] cannot match it. *)
Definition separator_length (s : string) : option nat :=
  match s with
  | String c t =>
      if JS.is_space c then
        match skip_spaces t with
        | String ">" (String d u) =>
            if JS.is_space d then
              Some (String.length s - String.length (skip_spaces u))
            else None
        | _ => None
        end
      else None
  | EmptyString => None
  end.

(** The loop of [split] with a pattern that matches no empty string:
    [skip] counts the characters of the current separator still to pass;
    the head of the result is the piece being read. *)
Fixpoint split_from (s : string) (skip : nat) : list string :=
  match s with
  | EmptyString => [EmptyString]
  | String c t =>
      match skip with
      | S k => split_from t k
      | O =>
          match separator_length s with
          | Some n => EmptyString :: split_from t (n - 1)
          | None =>
              match split_from t 0 with
              | h :: r => String c h :: r
              | [] => [String c EmptyString]
              end
          end
      end
  end.

(** [s.split(/\s+>\s+/)] *)
Definition split_hierarchy (s : string) : list string := split_from s 0.

(** Messages of the [TypeError] that V8 (Node 20) raises on a property
    access on [undefined]. *)
Definition cannot_set (level : string) : Thrown :=
  new_Error ("Cannot set properties of undefined (setting '" ++ level ++ "')").
Definition cannot_read (level : string) : Thrown :=
  new_Error ("Cannot read properties of undefined (reading '" ++ level ++ "')").

(** The rest of the [forEach] over [hierarchy] once [currentLevel] is
    [undefined]: the next property access throws. *)
Definition walk_undefined (hierarchy : list string) : Exc unit :=
  match hierarchy with
  | [] => Return tt
  | [level] => Throw (cannot_set level)
  | level :: _ => Throw (cannot_read level)
  end.

(** The rest of the [forEach] once [currentLevel] is the primitive
    [true]: the script is not in strict mode, so an assignment to a
    property of a primitive does nothing, and reading one gives
    [undefined]. *)
Definition walk_true (hierarchy : list string) : Exc unit :=
  match hierarchy with
  | [] => Return tt
  | [level] => Return tt
  | level :: rest => walk_undefined rest
  end.

(** The [forEach] over [hierarchy] while [currentLevel] is an object of
    the tree; the result is that object after the updates. *)
Fixpoint walk (hierarchy : list string) (isPassed : bool)
  (currentLevel : object) : Exc object :=
  match hierarchy with
  | [] => Return currentLevel
  | level :: rest =>
      match rest with
      | [] => Return (set currentLevel level (VBool isPassed))
      | _ :: _ =>
          match get currentLevel level with
          | Some (VObject o) =>
              o' <- walk rest isPassed o ;;
              Return (set currentLevel level (VObject o'))
          | Some (VBool true) =>
              _ <- walk_true rest ;;
              Return currentLevel
          | Some (VBool false) | None =>
              o' <- walk rest isPassed [] ;;
              Return (set currentLevel level (VObject o'))
          end
      end
  end.

(** The body of the [forEach] over the lines. *)
Definition parse_line (tests : object) (line : string) : Exc object :=
  let trimmedLine := JS.trim line in
  match line_match trimmedLine with
  | Some (g1, g2) =>
      let hierarchy := split_hierarchy g1 in
      let status := g2 in
      let isPassed := String.eqb status "PASSED" in
      walk hierarchy isPassed tests
  | None => Return tests
  end.

Fixpoint parse_lines (lines : list string) (tests : object) : Exc object :=
  match lines with
  | [] => Return tests
  | line :: rest =>
      tests' <- parse_line tests line ;;
      parse_lines rest tests'
  end.

Definition parseGradleTestResults (testResults : string) : Exc object :=
  parse_lines (JS.split_newline testResults) [].

Definition nl : string := String "010"%char EmptyString.

(** ** The host of the program *)

(** Options of an [execSync] call; the [env] option is the same constant
    object in every call. *)
Record ExecOptions : Type := mkExecOptions {
  opt_input : option string;
  opt_timeout : JS.number;
  opt_stdio_inherit : bool
}.

Record Host : Type := mkHost {
  (** the value of an action input as the runner passes it, [""] when unset *)
  raw_input : string -> string;
  (** [execSync(command, options)]: the captured standard output, or the
      error thrown when the command fails or is killed *)
  execSync : string -> ExecOptions -> Exc string;
  (** [new RegExp(pattern).test(subject)]; the constructor may throw *)
  regexTest : string -> string -> Exc bool;
  (** [parseFloat] on a non-empty string *)
  parseFloat : string -> JS.number;
  (** [endTime - startTime], in milliseconds *)
  elapsed : JS.number
}.

(** The options of the call that runs the test command:
    [{input, timeout, env}]. *)
Definition test_options (input : string) (timeout : JS.number)
  : ExecOptions :=
  mkExecOptions (Some input) timeout false.

(** [core.getInput(name, {required})] of [@actions/core]. *)
Definition getInput (h : Host) (name : string) (required : bool) : Exc string :=
  let val := raw_input h name in
  if required && negb (JS.truthy val) then
    Throw (new_Error ("Input required and not supplied: " ++ name))
  else Return (JS.trim val).

(** ** The comparator (identical in both versions) *)

Definition invalid_method (method : string) : Thrown :=
  new_Error ("Invalid comparison method: " ++ method).

Definition compareOutput (h : Host) (output expected method : string)
  : Exc bool :=
  if String.eqb method "exact" then Return (String.eqb output expected)
  else if String.eqb method "contains" then Return (JS.includes output expected)
  else if String.eqb method "regex" then regexTest h expected output
  else Throw (invalid_method method).

(** [['exact', 'contains', 'regex'].includes(method)] *)
Definition known_method (method : string) : bool :=
  String.eqb method "exact" || String.eqb method "contains"
  || String.eqb method "regex".

(** ** The result envelope *)

(** The strings ['pass'], ['fail'] and ['error']. *)
Inductive Status : Type := st_pass | st_fail | st_error.

(** The [execution_time] field: the string [`${seconds}s`] or the number
    [0] of the catch path. *)
Inductive ExecutionTime : Type :=
| seconds_string (seconds : JS.number)
| number_zero.

Record TestReport : Type := mkTestReport {
  name : string;
  test_status : Status;
  test_message : option string;
  test_code : string;
  filename : string;
  line_no : Z;
  execution_time : ExecutionTime;
  score : option JS.number
}.

Record Result : Type := mkResult {
  version : Z;
  status : Status;
  max_score : option JS.number;
  tests : list TestReport
}.

(** ** State and exceptions of [run] *)

(** What [run] changes: the variable [inputs] ([None] while it still is
    the empty object) and the outputs handed to [core.setOutput]. *)
Record State (I : Type) : Type := mkState {
  inputs_var : option I;
  outputs : list (string * Result)
}.

Arguments mkState {I} _ _.
Arguments inputs_var {I} _.
Arguments outputs {I} _.

Definition initial {I : Type} : State I := mkState None [].

Definition M (I A : Type) : Type := State I -> Exc A * State I.

Definition ret {I A : Type} (a : A) : M I A := fun st => (Return a, st).

Definition mbind {I A B : Type} (m : M I A) (k : A -> M I B) : M I B :=
  fun st =>
    match m st with
    | (Return a, st') => k a st'
    | (Throw e, st') => (Throw e, st')
    end.

Notation "x <~ m ;; k" := (mbind m (fun x => k))
  (at level 61, m at next level, right associativity).

(** A computation that only returns or throws. *)
Definition lift {I A : Type} (m : Exc A) : M I A := fun st => (m, st).

(** [inputs = v] *)
Definition assign_inputs {I : Type} (v : I) : M I unit :=
  fun st => (Return tt, mkState (Some v) (outputs st)).

(** [core.setOutput(name, btoa(JSON.stringify(result)))]: the output is
    recorded before its encoding. *)
Definition setOutput {I : Type} (key : string) (r : Result) : M I unit :=
  fun st => (Return tt, mkState (inputs_var st) (outputs st ++ [(key, r)])).

(** [try { body } catch (error) { handler(error) }] *)
Definition try_catch {I A : Type} (body : M I A) (handler : Thrown -> M I A)
  : M I A :=
  fun st =>
    match body st with
    | (Return a, st') => (Return a, st')
    | (Throw e, st') => handler e st'
    end.

(** The message of a timed-out command. *)
Definition timeout_message : string := "Command was killed due to timeout".

(** [`${command} <stdin>${input}`] *)
Definition test_code_of (command input : string) : string :=
  command ++ " <stdin>" ++ input.

(** The envelope of the catch path of [run], with [name], [command] and
    [input] read from the variable [inputs]. *)
Definition error_result (testName command input : option string)
  (e : Thrown) : Result :=
  let or_default (v : option string) (d : string) :=
    match v with
    | Some s => JS.or_else s d
    | None => d
    end in
  mkResult 1 st_error None
    [mkTestReport (or_default testName "Unknown Test") st_error
       (Some (message e))
       (test_code_of (or_default command "Unknown Command")
          (or_default input ""))
       "" 0 number_zero None].

(** ** The version with hierarchy scoring *)

Module Grader.

Record Inputs : Type := mkInputs {
  testName : string;
  setupCommand : string;
  command : string;
  input : string;
  expectedOutput : string;
  comparisonMethod : string;
  timeout : JS.number;
  passScore : JS.number;
  maxScore : JS.number
}.

(** [parseInt(core.getInput(name) || 0)] *)
Definition int_input (h : Host) (key : string) : Exc JS.number :=
  s <- getInput h key false ;;
  Return (if JS.truthy s then JS.parseInt s else JS.parseInt "0").

(** [parseFloat(core.getInput('timeout') || 10) * 60000] *)
Definition timeout_input (h : Host) : Exc JS.number :=
  s <- getInput h "timeout" false ;;
  Return (JS.mul (if JS.truthy s then parseFloat h s else JS.of_Z 10)
            (JS.of_Z 60000)).

Definition getInputs (h : Host) : Exc Inputs :=
  testName <- getInput h "test-name" true ;;
  setupCommand <- getInput h "setup-command" false ;;
  command <- getInput h "command" true ;;
  input0 <- getInput h "input" false ;;
  let input := JS.trim input0 in
  expectedOutput <- getInput h "expected-output" false ;;
  comparisonMethod <- getInput h "comparison-method" false ;;
  timeout <- timeout_input h ;;
  passScore <- int_input h "pass-score" ;;
  maxScore <- int_input h "max-score" ;;
  if JS.truthy comparisonMethod && negb (known_method comparisonMethod) then
    Throw (invalid_method comparisonMethod)
  else
    Return (mkInputs testName setupCommand command input expectedOutput
              comparisonMethod timeout
              (if JS.gt passScore JS.zero then passScore
               else JS.mul maxScore JS.lit_0_8)
              maxScore).

(** The object that [executeTest] returns; [None] is a missing field. *)
Record ExecutionResult : Type := mkExecutionResult {
  output : string;
  error_field : option string
}.

Definition executeTest (h : Host) (command input : string)
  (timeout : JS.number) : ExecutionResult :=
  match execSync h command (test_options input timeout) with
  | Return out => mkExecutionResult (JS.trim out) None
  | Throw e =>
      mkExecutionResult
        (match stdout e with
         | Some buffer => JS.trim buffer
         | None => ""
         end)
        (Some (if JS.includes (message e) "ETIMEDOUT" then timeout_message
               else message e))
  end.

(** [countPassedTests(node)], on the counters [(taskCount, taskPassed)]:
    [count_value] is the body of the loop for one value of the node. The
    counters are natural numbers, turned into numbers by [JS.of_nat]
    where [run] computes with them: the two agree below [2^53]. *)
Fixpoint count_value (value : Value) (counters : nat * nat) : nat * nat :=
  match value with
  | VObject entries =>
      (fix count_entries (node : object) (counters : nat * nat) :=
         match node with
         | [] => counters
         | (_, v) :: rest => count_entries rest (count_value v counters)
         end) entries counters
  | VBool b =>
      let '(taskCount, taskPassed) := counters in
      (S taskCount, taskPassed + (if b then 1 else 0))
  end.

Definition countPassedTests (node : object) (counters : nat * nat)
  : nat * nat :=
  count_value (VObject node) counters.

(** The values of the variables [status], [message], [maxScore],
    [passScore] and [score] when the envelope is built, with the two
    counters. *)
Record Outcome : Type := mkOutcome {
  o_status : Status;
  o_message : option string;
  o_maxScore : JS.number;
  o_passScore : JS.number;
  o_score : JS.number;
  o_taskCount : nat;
  o_taskPassed : nat
}.

(** [if (error)] on an optional string. *)
Definition error_truthy (error : option string) : bool :=
  match error with
  | Some m => JS.truthy m
  | None => false
  end.

(** [run] from the parse of the output to the choice of the status. *)
Definition grade (h : Host) (inputs : Inputs) (output : string)
  (error : option string) : Exc Outcome :=
  let maxScore := maxScore inputs in
  let passScore := passScore inputs in
  let score := maxScore in
  parsedResults <- parseGradleTestResults output ;;
  let '(taskCount, taskPassed) := countPassedTests parsedResults (0, 0) in
  if (0 <? taskCount)%nat then
    let '(maxScore, passScore, score) :=
      if JS.strict_eq maxScore JS.zero then
        (JS.of_nat taskCount, JS.mul (JS.of_nat taskCount) JS.lit_0_8,
         JS.of_nat taskPassed)
      else
        (maxScore, passScore,
         JS.mul (JS.div (JS.of_nat taskPassed) (JS.of_nat taskCount)) maxScore)
    in
    if JS.lt score passScore then
      Return (mkOutcome st_fail (Some "You need earn more score.")
                maxScore passScore score taskCount taskPassed)
    else
      Return (mkOutcome st_pass None maxScore passScore score taskCount taskPassed)
  else
    if error_truthy error then
      Return (mkOutcome st_error error maxScore passScore JS.zero
                taskCount taskPassed)
    else
      matched <- compareOutput h output (expectedOutput inputs)
                   (comparisonMethod inputs) ;;
      if negb matched then
        Return (mkOutcome st_fail
                  (Some ("Output does not match expected: "
                         ++ expectedOutput inputs ++ " Got: " ++ output))
                  maxScore passScore JS.zero taskCount taskPassed)
      else
        Return (mkOutcome st_pass None maxScore passScore score
                  taskCount taskPassed).

(** The envelope of the success path. *)
Definition result_of (h : Host) (inputs : Inputs) (o : Outcome) : Result :=
  mkResult 1 (o_status o) (Some (o_maxScore o))
    [mkTestReport (testName inputs) (o_status o) (o_message o)
       (test_code_of (command inputs) (input inputs))
       "" 0 (seconds_string (JS.div (elapsed h) (JS.of_Z 1000)))
       (Some (o_score o))].

(** [execSync(inputs.setupCommand, {timeout, stdio: 'inherit', env})]
    when a setup command is given. *)
Definition run_setup (h : Host) (inputs : Inputs) : Exc unit :=
  if JS.truthy (setupCommand inputs) then
    _ <- execSync h (setupCommand inputs)
           (mkExecOptions None (timeout inputs) true) ;;
    Return tt
  else Return tt.

(** The [try] block of [run]. *)
Definition run_try (h : Host) : M Inputs unit :=
  inputs <~ lift (getInputs h) ;;
  _ <~ assign_inputs inputs ;;
  _ <~ lift (run_setup h inputs) ;;
  let r := executeTest h (command inputs) (input inputs) (timeout inputs) in
  o <~ lift (grade h inputs (output r) (error_field r)) ;;
  setOutput "result" (result_of h inputs o).

(** The [catch] block of [run]. *)
Definition run_catch (e : Thrown) : M Inputs unit :=
  fun st =>
    let inputs := inputs_var st in
    setOutput "result"
      (error_result (option_map testName inputs) (option_map command inputs)
         (option_map input inputs) e) st.

Definition run (h : Host) : M Inputs unit :=
  try_catch (run_try h) run_catch.

(** The outputs set by one run of the program. *)
Definition emitted (h : Host) : list (string * Result) :=
  outputs (snd (run h initial)).

End Grader.

(** ** The [src/main.js] version *)

Module MainJs.

Record Inputs : Type := mkInputs {
  testName : string;
  setupCommand : string;
  command : string;
  input : string;
  expectedOutput : string;
  comparisonMethod : string;
  timeout : JS.number;
  maxScore : JS.number
}.

Definition getInputs (h : Host) : Exc Inputs :=
  testName <- getInput h "test-name" true ;;
  setupCommand <- getInput h "setup-command" false ;;
  command <- getInput h "command" true ;;
  input0 <- getInput h "input" false ;;
  let input := JS.trim input0 in
  expectedOutput <- getInput h "expected-output" true ;;
  comparisonMethod <- getInput h "comparison-method" true ;;
  timeout <- Grader.timeout_input h ;;
  maxScore <- Grader.int_input h "max-score" ;;
  if negb (known_method comparisonMethod) then
    Throw (invalid_method comparisonMethod)
  else if negb (JS.truthy testName) || negb (JS.truthy command)
          || negb (JS.truthy expectedOutput)
          || negb (JS.truthy comparisonMethod) then
    Throw (new_Error "Required inputs are missing or invalid")
  else
    Return (mkInputs testName setupCommand command input expectedOutput
              comparisonMethod timeout maxScore).

(** The object that [executeTest] returns; [None] is a missing field. *)
Record ExecutionResult : Type := mkExecutionResult {
  output : option string;
  error_field : option string
}.

Definition executeTest (h : Host) (command input : string)
  (timeout : JS.number) : ExecutionResult :=
  match execSync h command (test_options input timeout) with
  | Return out => mkExecutionResult (Some (JS.trim out)) None
  | Throw e =>
      let message :=
        if JS.includes (message e) "ETIMEDOUT" then timeout_message
        else message e in
      mkExecutionResult None (Some message)
  end.

(** [typeof] of a key of a [for ... in] loop: a key is a string. *)
Definition typeof_key (key : string) : string := "string".

(** [countPassedTests(node)], on the counters [(taskCount, taskPassed)]:
    the [switch] is on the type of the key; [count_value] is the call on
    [node[key]], where a boolean has no key to loop over. *)
Fixpoint count_value (value : Value) (counters : nat * nat) : nat * nat :=
  match value with
  | VObject entries =>
      (fix count_entries (node : object) (counters : nat * nat) :=
         match node with
         | [] => counters
         | (key, v) :: rest =>
             count_entries rest
               (if String.eqb (typeof_key key) "object" then
                  count_value v counters
                else if String.eqb (typeof_key key) "boolean" then
                  let '(taskCount, taskPassed) := counters in
                  (S taskCount,
                   taskPassed + (match v with VBool false => 0 | _ => 1 end))
                else counters)
         end) entries counters
  | VBool _ => counters
  end.

Definition countPassedTests (node : object) (counters : nat * nat)
  : nat * nat :=
  count_value (VObject node) counters.

Record Outcome : Type := mkOutcome {
  o_status : Status;
  o_message : option string;
  o_maxScore : JS.number;
  o_score : JS.number
}.

Definition cannot_read_of_undefined (property : string) : Thrown :=
  new_Error ("Cannot read properties of undefined (reading '"
             ++ property ++ "')").

(** [compareOutput(output, expected, method)] where [output] may be
    [undefined]. *)
Definition compare (h : Host) (output : option string)
  (expected method : string) : Exc bool :=
  match output with
  | Some out => compareOutput h out expected method
  | None =>
      if String.eqb method "exact" then Return false
      else if String.eqb method "contains" then
        Throw (cannot_read_of_undefined "includes")
      else if String.eqb method "regex" then regexTest h expected "undefined"
      else Throw (invalid_method method)
  end.

(** [`${output}`] *)
Definition show (output : option string) : string :=
  match output with
  | Some out => out
  | None => "undefined"
  end.

(** [parseGradleTestResults(output)] where [output] may be [undefined]. *)
Definition parse (output : option string) : Exc object :=
  match output with
  | Some out => parseGradleTestResults out
  | None => Throw (cannot_read_of_undefined "split")
  end.

(** [run] from the test of [error] to the choice of the status. *)
Definition grade (h : Host) (inputs : Inputs) (output : option string)
  (error : option string) : Exc Outcome :=
  let maxScore := maxScore inputs in
  let score := maxScore in
  if Grader.error_truthy error then
    Return (mkOutcome st_error error maxScore JS.zero)
  else
    matched <- compare h output (expectedOutput inputs)
                 (comparisonMethod inputs) ;;
    if negb matched then
      Return (mkOutcome st_fail
                (Some ("Output does not match expected: "
                       ++ expectedOutput inputs ++ " Got: " ++ show output))
                maxScore JS.zero)
    else
      parsedResults <- parse output ;;
      let '(taskCount, taskPassed) := countPassedTests parsedResults (0, 0) in
      if (taskCount =? 0)%nat then
        if JS.strict_eq maxScore JS.zero then
          Return (mkOutcome st_pass None (JS.of_nat taskCount)
                    (JS.of_nat taskPassed))
        else
          Return (mkOutcome st_pass None maxScore
                    (JS.div (JS.of_nat taskPassed) (JS.of_nat taskCount)))
      else Return (mkOutcome st_pass None maxScore score).

Definition result_of (h : Host) (inputs : Inputs) (o : Outcome) : Result :=
  mkResult 1 (o_status o) (Some (o_maxScore o))
    [mkTestReport (testName inputs) (o_status o) (o_message o)
       (test_code_of (command inputs) (input inputs))
       "" 0 (seconds_string (JS.div (elapsed h) (JS.of_Z 1000)))
       (Some (o_score o))].

Definition run_setup (h : Host) (inputs : Inputs) : Exc unit :=
  if JS.truthy (setupCommand inputs) then
    _ <- execSync h (setupCommand inputs)
           (mkExecOptions None (timeout inputs) true) ;;
    Return tt
  else Return tt.

(** The [try] block of [run]. *)
Definition run_try (h : Host) : M Inputs unit :=
  inputs <~ lift (getInputs h) ;;
  _ <~ assign_inputs inputs ;;
  _ <~ lift (run_setup h inputs) ;;
  let r := executeTest h (command inputs) (input inputs) (timeout inputs) in
  o <~ lift (grade h inputs (output r) (error_field r)) ;;
  setOutput "result" (result_of h inputs o).

(** The [catch] block of [run]. *)
Definition run_catch (e : Thrown) : M Inputs unit :=
  fun st =>
    let inputs := inputs_var st in
    setOutput "result"
      (error_result (option_map testName inputs) (option_map command inputs)
         (option_map input inputs) e) st.

Definition run (h : Host) : M Inputs unit :=
  try_catch (run_try h) run_catch.

Definition emitted (h : Host) : list (string * Result) :=
  outputs (snd (run h initial)).

End MainJs.

(** ** Vocabulary of the properties *)

(** The number that [getInputs] reads from the integer input [key]:
    [parseInt] of its trimmed value, and [0] when it is unset. *)
Definition configured (h : Host) (key : string) : JS.number :=
  let s := JS.trim (raw_input h key) in
  if JS.truthy s then JS.parseInt s else JS.parseInt "0".

(** The result of [executeTest] in a run with the inputs [inputs]. *)
Definition grader_execution (h : Host) (inputs : Grader.Inputs)
  : Grader.ExecutionResult :=
  Grader.executeTest h (Grader.command inputs) (Grader.input inputs)
    (Grader.timeout inputs).

Definition main_js_execution (h : Host) (inputs : MainJs.Inputs)
  : MainJs.ExecutionResult :=
  MainJs.executeTest h (MainJs.command inputs) (MainJs.input inputs)
    (MainJs.timeout inputs).

(** The inputs [inputs] with another expected output and comparison
    method. *)
Definition with_comparison (inputs : Grader.Inputs)
  (expected method : string) : Grader.Inputs :=
  Grader.mkInputs (Grader.testName inputs) (Grader.setupCommand inputs)
    (Grader.command inputs) (Grader.input inputs) expected method
    (Grader.timeout inputs) (Grader.passScore inputs)
    (Grader.maxScore inputs).

(** The host [h] with another regular expression engine. *)
Definition with_regexTest (h : Host)
  (engine : string -> string -> Exc bool) : Host :=
  mkHost (raw_input h) (execSync h) engine (parseFloat h) (elapsed h).

(** Every error thrown by the host carries a message, as the errors of
    [execSync] (["Command failed: ..."], ["spawnSync /bin/sh ETIMEDOUT"])
    and of [RegExp] (["Invalid regular expression: ..."]) do. *)
Definition host_errors_have_messages (h : Host) : Prop :=
  (forall command options e,
      execSync h command options = Throw e -> message e <> "") /\
  (forall pattern subject e,
      regexTest h pattern subject = Throw e -> message e <> "").

(** The shape of the envelope of the catch path, with the message
    [msg]. *)
Definition is_error_envelope (r : Result) (msg : string) : Prop :=
  version r = 1%Z /\ status r = st_error /\ max_score r = None /\
  exists t,
    tests r = [t] /\ test_status t = st_error /\
    test_message t = Some msg /\ execution_time t = number_zero /\
    score t = None.

(** The envelope of the catch path when [inputs] still is the empty
    object. *)
Definition placeholder_result (e : Thrown) : Result :=
  mkResult 1 st_error None
    [mkTestReport "Unknown Test" st_error (Some (message e))
       "Unknown Command <stdin>" "" 0 number_zero None].

(** The failure of a time-based kill: Node sets the code ["ETIMEDOUT"]
    on the error of a command that it killed after the timeout. *)
Definition time_based_kill (e : Thrown) : Prop := code e = Some "ETIMEDOUT".

(** Every character of [s] satisfies [p]. *)
Fixpoint all_chars (p : ascii -> bool) (s : string) : bool :=
  match s with
  | EmptyString => true
  | String c t => p c && all_chars p t
  end.

(** The three parts of a match of [(.+)\s+(PASSED|FAILED)]: one or more
    characters that are no line terminators, one or more white space
    characters, and one of the two tokens. *)
Definition match_parts (prefix spaces token : string) : Prop :=
  prefix <> "" /\
  all_chars (fun c => negb (JS.is_line_terminator c)) prefix = true /\
  spaces <> "" /\
  all_chars JS.is_space spaces = true /\
  (token = "PASSED" \/ token = "FAILED").

(** The pattern matches somewhere in the line [l]. *)
Definition has_match (l : string) : Prop :=
  exists before prefix spaces token rest,
    l = before ++ prefix ++ spaces ++ token ++ rest /\
    match_parts prefix spaces token.

(** ** Hosts for the examples *)

Fixpoint lookup_input (inputs : list (string * string)) (key : string)
  : string :=
  match inputs with
  | [] => ""
  | (k, v) :: rest => if String.eqb k key then v else lookup_input rest key
  end.

(** A host whose test command has the outcome [test_run], whose setup
    command succeeds and whose regular expressions never match. *)
Definition host_with (inputs : list (string * string))
  (test_run : Exc string) : Host :=
  mkHost (lookup_input inputs)
    (fun _ options =>
       if opt_stdio_inherit options then Return "" else test_run)
    (fun _ _ => Return false)
    (fun _ => JS.of_Z 1)
    (JS.of_Z 1500).

(** Ten leaves under one suite, seven of them passed. *)
Definition report_7_of_10 : string :=
  "S > t0 PASSED" ++ nl ++ "S > t1 PASSED" ++ nl ++ "S > t2 PASSED" ++ nl
  ++ "S > t3 PASSED" ++ nl ++ "S > t4 PASSED" ++ nl ++ "S > t5 PASSED" ++ nl
  ++ "S > t6 PASSED" ++ nl ++ "S > t7 FAILED" ++ nl ++ "S > t8 FAILED" ++ nl
  ++ "S > t9 FAILED" ++ nl.

Definition report_8_of_10 : string :=
  "S > t0 PASSED" ++ nl ++ "S > t1 PASSED" ++ nl ++ "S > t2 PASSED" ++ nl
  ++ "S > t3 PASSED" ++ nl ++ "S > t4 PASSED" ++ nl ++ "S > t5 PASSED" ++ nl
  ++ "S > t6 PASSED" ++ nl ++ "S > t7 PASSED" ++ nl ++ "S > t8 FAILED" ++ nl
  ++ "S > t9 FAILED" ++ nl.

Definition lazy_host : Host :=
  host_with [("test-name", "unit"); ("command", "gradle test")]
    (Return report_7_of_10).

Definition weighted_host : Host :=
  host_with [("test-name", "unit"); ("command", "gradle test");
             ("max-score", "50")]
    (Return report_8_of_10).

Definition negative_host : Host :=
  host_with [("test-name", "unit"); ("command", "gradle test");
             ("max-score", "-5")]
    (Return "t PASSED").

(** The error of [grep ETIMEDOUT build.log], which finds nothing and
    exits with the status 1: the message of [execSync] is
    ["Command failed: "], the command, a line feed and the standard
    error output. *)
Definition grep_failure : Thrown :=
  mkThrown ("Command failed: grep ETIMEDOUT build.log" ++ nl) (Some "") None.

Definition grep_host : Host :=
  host_with [("test-name", "log"); ("command", "grep ETIMEDOUT build.log")]
    (Throw grep_failure).

(** The error of a command killed after the timeout, with the output it
    wrote before. *)
Definition timeout_failure : Thrown :=
  mkThrown "spawnSync /bin/sh ETIMEDOUT"
    (Some ("S > t0 PASSED" ++ nl ++ "S > t1 ")) (Some "ETIMEDOUT").

Definition timeout_host : Host :=
  host_with [("test-name", "unit"); ("command", "gradle test");
             ("expected-output", "x"); ("comparison-method", "exact")]
    (Throw timeout_failure).

(** A host without the required input [test-name]. *)
Definition unnamed_host : Host :=
  host_with [("command", "gradle test")] (Return "").

(** A host whose test command writes [42], compared with ['exact']. *)
Definition exact_host : Host :=
  host_with [("test-name", "io"); ("command", "./a.out");
             ("expected-output", "42"); ("comparison-method", "exact");
             ("max-score", "5")]
    (Return (" 42" ++ nl)).

(** A report where the test [A] passed and a later line puts a test
    under [A]. *)
Definition collision_host : Host :=
  host_with [("test-name", "unit"); ("command", "gradle test")]
    (Return ("A PASSED" ++ nl ++ "A > B > C PASSED" ++ nl)).

(** ** Vocabulary of the further properties *)

(** The value stored at a path of segments, when every segment but the
    last names a nested object. *)
Fixpoint lookup_path (path : list string) (node : object) : option Value :=
  match path with
  | [] => None
  | key :: rest =>
      match rest with
      | [] => get node key
      | _ :: _ =>
          match get node key with
          | Some (VObject o) => lookup_path rest o
          | _ => None
          end
      end
  end.

(** A branch segment of the path holds the leaf [true]. *)
Fixpoint crosses_passed_leaf (path : list string) (node : object) : bool :=
  match path with
  | [] => false
  | key :: rest =>
      match rest with
      | [] => false
      | _ :: _ =>
          match get node key with
          | Some (VBool true) => true
          | Some (VObject o) => crosses_passed_leaf rest o
          | _ => false
          end
      end
  end.

(** The names of the properties of [Object.prototype], which every
    object of the tree and the primitive [true] inherit: a property access
    with one of these names reads or calls the inherited member. *)
Definition prototype_members : list string :=
  ["__proto__"; "constructor"; "hasOwnProperty"; "isPrototypeOf";
   "propertyIsEnumerable"; "toLocaleString"; "toString"; "valueOf";
   "__defineGetter__"; "__defineSetter__"; "__lookupGetter__";
   "__lookupSetter__"].

(** A key that names no inherited member: reading and writing it touches
    own properties only. *)
Definition plain_key (key : string) : bool :=
  negb (existsb (String.eqb key) prototype_members).

Definition plain_path (path : list string) : bool := forallb plain_key path.

(** Every report line of the text has a path of plain keys. *)
Definition plain_report (testResults : string) : bool :=
  forallb
    (fun line =>
       match line_match (JS.trim line) with
       | Some (g1, _) => plain_path (split_hierarchy g1)
       | None => true
       end)
    (JS.split_newline testResults).

(** The keys of an object, in order. *)
Definition keys (node : object) : list string := map fst node.

(** Every object nested in the value has a key, and no object has a key
    twice. *)
Fixpoint well_formed (inner : bool) (value : Value) : Prop :=
  match value with
  | VBool _ => True
  | VObject entries =>
      (inner = true -> entries <> []) /\
      NoDup (map fst entries) /\
      (fix all_well_formed (node : object) : Prop :=
         match node with
         | [] => True
         | (_, v) :: rest => well_formed true v /\ all_well_formed rest
         end) entries
  end.

(** The tree of a report: the root may be empty. *)
Definition well_formed_tree (tests : object) : Prop :=
  well_formed false (VObject tests).

(** The host [h] with another outcome of every [execSync] call. *)
Definition with_execSync (h : Host)
  (exec : string -> ExecOptions -> Exc string) : Host :=
  mkHost (raw_input h) exec (regexTest h) (parseFloat h) (elapsed h).

(** A host whose inputs carry white space around their values. *)
Definition padded_host : Host :=
  host_with [("test-name", " unit "); ("command", "  ./run.sh  ");
             ("input", " 1 2 " ++ nl); ("comparison-method", " exact ")]
    (Return "").

(** A host whose required input [test-name] is blank. *)
Definition blank_name_host : Host :=
  host_with [("test-name", "  "); ("command", "./a.out");
             ("expected-output", "42"); ("comparison-method", "exact")]
    (Return "42").

(** The first segment of a path. *)
Definition first_segment (path : list string) : option string :=
  match path with
  | [] => None
  | key :: _ => Some key
  end.

(** The two counters after [countPassedTests] on a fresh pair. *)
Definition taskCount_of (tree : object) : nat :=
  fst (Grader.countPassedTests tree (0, 0)).

Definition taskPassed_of (tree : object) : nat :=
  snd (Grader.countPassedTests tree (0, 0)).

(** What every envelope has in common: the version 1, one test with the
    status of the whole, no file name and no line number, a message
    unless the status is ['pass'], and a score exactly when there is a
    maximal score, which only the envelope of the catch path lacks. *)
Definition envelope_shape (r : Result) : Prop :=
  version r = 1%Z /\
  exists t,
    tests r = [t] /\
    test_status t = status r /\
    filename t = "" /\
    line_no t = 0%Z /\
    (status r = st_pass <-> test_message t = None) /\
    (max_score r = None <-> score t = None) /\
    (score t = None ->
     status r = st_error /\ execution_time t = number_zero).

(** A host whose test command is killed after the timeout, having
    written two lines of its report. *)
Definition partial_report_host : Host :=
  host_with [("test-name", "unit"); ("command", "gradle test");
             ("expected-output", "x"); ("comparison-method", "exact")]
    (Throw (mkThrown "spawnSync /bin/sh ETIMEDOUT"
              (Some ("S > t0 PASSED" ++ nl ++ "S > t1 PASSED" ++ nl ++ "S > "))
              (Some "ETIMEDOUT"))).

(** A host whose setup command fails. *)
Definition failing_setup_host : Host :=
  mkHost
    (lookup_input [("test-name", "unit"); ("command", "gradle test");
                   ("setup-command", "npm install")])
    (fun _ options =>
       if opt_stdio_inherit options then
         Throw (mkThrown ("Command failed: npm install" ++ nl) None None)
       else Return "S > t0 PASSED")
    (fun _ _ => Return false)
    (fun _ => JS.of_Z 1)
    (JS.of_Z 1500).

(** A host with plain output and no comparison method. *)
Definition no_method_host : Host :=
  host_with [("test-name", "io"); ("command", "./a.out");
             ("expected-output", "42")]
    (Return "42").

(** A host whose output differs from the expected one. *)
Definition mismatch_host : Host :=
  host_with [("test-name", "io"); ("command", "./a.out");
             ("expected-output", "42"); ("comparison-method", "exact");
             ("max-score", "5")]
    (Return "41").

(** The string has no [>]. *)
Definition no_separator (s : string) : bool :=
  all_chars (fun c => negb (Ascii.eqb c ">"%char)) s.

(** Every value of the object is a leaf. *)
Definition flat (tests : object) : Prop :=
  Forall (fun kv => exists b, snd kv = VBool b) tests.

(** A host whose [max-score] is no number, with a report of one failed
    test. *)
Definition nan_host : Host :=
  host_with [("test-name", "unit"); ("command", "gradle test");
             ("max-score", "ten"); ("pass-score", "8")]
    (Return "S > t0 FAILED").
(** * Properties *)

(** ** The embedding on the examples of the specification *)

Example parseInt_examples :
  JS.parseInt "50" = JS.of_Z 50 /\ JS.parseInt "-5" = JS.of_Z (-5) /\
  JS.parseInt " 12px" = JS.of_Z 12 /\ JS.parseInt "0x1f" = JS.of_Z 31 /\
  JS.parseInt "abc" = JS.NaN /\ JS.parseInt "-0" = JS.neg_zero /\
  JS.mul (JS.of_Z 10) JS.lit_0_8 = JS.of_Z 8 /\
  JS.div (JS.of_Z 4) (JS.of_Z 5) = JS.lit_0_8 /\
  JS.trim "  a b  " = "a b" /\
  JS.split_newline "a
b
" = ["a"; "b"; ""].
Proof. repeat split; vm_compute; reflexivity. Qed.

Example parse_examples :
  parseGradleTestResults ("Suite > A PASSED" ++ nl ++ "Suite > B FAILED" ++ nl)
    = Return [("Suite", VObject [("A", VBool true); ("B", VBool false)])] /\
  parseGradleTestResults "hello world" = Return [] /\
  parseGradleTestResults "" = Return [] /\
  parseGradleTestResults "  solo PASSED  " = Return [("solo", VBool true)] /\
  parseGradleTestResults "A  >   B  PASSED" = Return [("A", VObject [("B ", VBool true)])] /\
  parseGradleTestResults "A PASSED B FAILED" = Return [("A PASSED B", VBool false)] /\
  parseGradleTestResults ("A FAILED" ++ nl ++ "A > B PASSED")
    = Return [("A", VObject [("B", VBool true)])] /\
  parseGradleTestResults ("A PASSED" ++ nl ++ "A > B FAILED")
    = Return [("A", VBool true)] /\
  parseGradleTestResults ("A PASSED" ++ nl ++ "A > B > C PASSED")
    = Throw (cannot_set "C").
Proof. repeat split; vm_compute; reflexivity. Qed.

Example lazy_run :
  Grader.emitted lazy_host =
  [("result",
    mkResult 1 st_fail (Some (JS.of_Z 10))
      [mkTestReport "unit" st_fail (Some "You need earn more score.")
         "gradle test <stdin>" "" 0
         (seconds_string (JS.div (JS.of_Z 1500) (JS.of_Z 1000)))
         (Some (JS.of_Z 7))])].
Proof. vm_compute. reflexivity. Qed.

Example weighted_run :
  Grader.emitted weighted_host =
  [("result",
    mkResult 1 st_pass (Some (JS.of_Z 50))
      [mkTestReport "unit" st_pass None
         "gradle test <stdin>" "" 0
         (seconds_string (JS.div (JS.of_Z 1500) (JS.of_Z 1000)))
         (Some (JS.of_Z 40))])].
Proof. vm_compute. reflexivity. Qed.

Example negative_run :
  Grader.emitted negative_host =
  [("result",
    mkResult 1 st_fail (Some (JS.of_Z (-5)))
      [mkTestReport "unit" st_fail (Some "You need earn more score.")
         "gradle test <stdin>" "" 0
         (seconds_string (JS.div (JS.of_Z 1500) (JS.of_Z 1000)))
         (Some (JS.of_Z (-5)))])].
Proof. vm_compute. reflexivity. Qed.

(** ** Numbers *)

Lemma gt_zero_not_zero (x : JS.number) :
  JS.gt x JS.zero = true -> JS.strict_eq x JS.zero = false.
Proof.
  destruct x as [s | s | | s m e]; simpl; try discriminate;
    destruct s; simpl; try discriminate; reflexivity.
Qed.

Lemma lt_zero_not_zero (x : JS.number) :
  JS.lt x JS.zero = true -> JS.strict_eq x JS.zero = false.
Proof.
  destruct x as [s | s | | s m e]; simpl; try discriminate;
    destruct s; simpl; try discriminate; reflexivity.
Qed.

(** ** Reading the inputs *)

Lemma getInput_optional (h : Host) (key : string) :
  getInput h key false = Return (JS.trim (raw_input h key)).
Proof. reflexivity. Qed.

Lemma int_input_configured (h : Host) (key : string) :
  Grader.int_input h key = Return (configured h key).
Proof. reflexivity. Qed.

Lemma configured_unset (h : Host) (key : string) :
  raw_input h key = "" -> configured h key = JS.zero.
Proof. intros E. unfold configured. rewrite E. reflexivity. Qed.

Lemma bind_Return {A B : Type} (m : Exc A) (k : A -> Exc B) (b : B) :
  bind m k = Return b -> exists a, m = Return a /\ k a = Return b.
Proof. destruct m as [a | e]; simpl; intros E; [eauto | discriminate]. Qed.

(** The two scores of the inputs, from the configured numbers. *)
Lemma grader_getInputs_scores (h : Host) (inputs : Grader.Inputs) :
  Grader.getInputs h = Return inputs ->
  Grader.maxScore inputs = configured h "max-score" /\
  Grader.passScore inputs =
    (if JS.gt (configured h "pass-score") JS.zero
     then configured h "pass-score"
     else JS.mul (configured h "max-score") JS.lit_0_8).
Proof.
  unfold Grader.getInputs, Grader.timeout_input, Grader.int_input.
  destruct (getInput h "test-name" true); simpl bind; [| discriminate].
  destruct (getInput h "command" true); simpl bind; [| discriminate].
  destruct (_ && _); [discriminate |].
  intros E; injection E as <-. simpl. split; reflexivity.
Qed.

(** ** The orchestrator of the version with hierarchy scoring *)

(** The [try] block, case by case. *)
Lemma grader_run_try_cases (h : Host) :
  Grader.run_try h initial =
  match Grader.getInputs h with
  | Throw e => (Throw e, initial)
  | Return inputs =>
      match Grader.run_setup h inputs with
      | Throw e => (Throw e, mkState (Some inputs) [])
      | Return _ =>
          let r := grader_execution h inputs in
          match Grader.grade h inputs (Grader.output r) (Grader.error_field r)
          with
          | Throw e => (Throw e, mkState (Some inputs) [])
          | Return o =>
              (Return tt,
               mkState (Some inputs)
                 [("result", Grader.result_of h inputs o)])
          end
      end
  end.
Proof.
  unfold Grader.run_try, mbind, lift, assign_inputs, setOutput,
    grader_execution.
  destruct (Grader.getInputs h) as [inputs | e]; [| reflexivity].
  simpl. destruct (Grader.run_setup h inputs) as [[] | e]; [| reflexivity].
  destruct (Grader.grade _ _ _ _); reflexivity.
Qed.

Lemma grader_emitted_on_success (h : Host) (inputs : Grader.Inputs)
  (o : Grader.Outcome) :
  Grader.getInputs h = Return inputs ->
  Grader.run_setup h inputs = Return tt ->
  Grader.grade h inputs (Grader.output (grader_execution h inputs))
    (Grader.error_field (grader_execution h inputs)) = Return o ->
  Grader.emitted h = [("result", Grader.result_of h inputs o)].
Proof.
  intros Hi Hs Hg. unfold Grader.emitted, Grader.run, try_catch.
  rewrite grader_run_try_cases, Hi, Hs. cbv zeta. rewrite Hg. reflexivity.
Qed.

(** The scoring of a tree with at least one leaf. *)
Lemma grader_grade_with_leaves (h : Host) (inputs : Grader.Inputs)
  (output : string) (error : option string) (tree : object)
  (taskCount taskPassed : nat) :
  parseGradleTestResults output = Return tree ->
  Grader.countPassedTests tree (0, 0) = (taskCount, taskPassed) ->
  (0 < taskCount)%nat ->
  exists o,
    Grader.grade h inputs output error = Return o /\
    Grader.o_taskCount o = taskCount /\
    Grader.o_taskPassed o = taskPassed /\
    Grader.o_status o =
      (if JS.lt (Grader.o_score o) (Grader.o_passScore o)
       then st_fail else st_pass) /\
    (JS.strict_eq (Grader.maxScore inputs) JS.zero = true ->
     Grader.o_maxScore o = JS.of_nat taskCount /\
     Grader.o_passScore o = JS.mul (JS.of_nat taskCount) JS.lit_0_8 /\
     Grader.o_score o = JS.of_nat taskPassed) /\
    (JS.strict_eq (Grader.maxScore inputs) JS.zero = false ->
     Grader.o_maxScore o = Grader.maxScore inputs /\
     Grader.o_passScore o = Grader.passScore inputs /\
     Grader.o_score o =
       JS.mul (JS.div (JS.of_nat taskPassed) (JS.of_nat taskCount))
         (Grader.maxScore inputs)).
Proof.
  intros Hp Hc Hpos. unfold Grader.grade. rewrite Hp. simpl bind. rewrite Hc.
  apply Nat.ltb_lt in Hpos. rewrite Hpos.
  destruct (JS.strict_eq (Grader.maxScore inputs) JS.zero) eqn:Hz;
    match goal with
    | |- context [if JS.lt ?s ?p then _ else _] => destruct (JS.lt s p) eqn:Hlt
    end;
    eexists; (split; [reflexivity |]); simpl; rewrite Hlt;
    repeat split; intros; try discriminate; reflexivity.
Qed.

(** The scoring of a tree without leaf. *)
Lemma grader_grade_without_leaves (h : Host) (inputs : Grader.Inputs)
  (output : string) (error : option string) (tree : object)
  (taskPassed : nat) :
  parseGradleTestResults output = Return tree ->
  Grader.countPassedTests tree (0, 0) = (0, taskPassed) ->
  Grader.grade h inputs output error =
  if Grader.error_truthy error then
    Return (Grader.mkOutcome st_error error (Grader.maxScore inputs)
              (Grader.passScore inputs) JS.zero 0 taskPassed)
  else
    matched <- compareOutput h output (Grader.expectedOutput inputs)
                 (Grader.comparisonMethod inputs) ;;
    if negb matched then
      Return (Grader.mkOutcome st_fail
                (Some ("Output does not match expected: "
                       ++ Grader.expectedOutput inputs ++ " Got: " ++ output))
                (Grader.maxScore inputs) (Grader.passScore inputs) JS.zero
                0 taskPassed)
    else
      Return (Grader.mkOutcome st_pass None (Grader.maxScore inputs)
                (Grader.passScore inputs) (Grader.maxScore inputs)
                0 taskPassed).
Proof.
  intros Hp Hc. unfold Grader.grade. rewrite Hp. simpl bind. rewrite Hc.
  reflexivity.
Qed.

(** ** Scoring *)

(** C1, as amended: in a run whose tree has at least one leaf, the lazy
    branch is the branch of a configured max-score equal to 0 (unset, [0]
    or [-0]): then [maxScore = taskCount], [passScore = taskCount * 0.8]
    and [score = taskPassed]. A negative max-score is kept as the maximal
    score, and the score is [(taskPassed / taskCount) * maxScore]. *)
Theorem lazy_mode_when_max_score_is_zero
  (h : Host) (inputs : Grader.Inputs) (tree : object)
  (taskCount taskPassed : nat) :
  Grader.getInputs h = Return inputs ->
  Grader.run_setup h inputs = Return tt ->
  parseGradleTestResults (Grader.output (grader_execution h inputs))
    = Return tree ->
  Grader.countPassedTests tree (0, 0) = (taskCount, taskPassed) ->
  (0 < taskCount)%nat ->
  exists o,
    Grader.emitted h = [("result", Grader.result_of h inputs o)] /\
    Grader.o_status o =
      (if JS.lt (Grader.o_score o) (Grader.o_passScore o)
       then st_fail else st_pass) /\
    (raw_input h "max-score" = "" \/
     JS.strict_eq (configured h "max-score") JS.zero = true ->
     Grader.o_maxScore o = JS.of_nat taskCount /\
     Grader.o_passScore o = JS.mul (JS.of_nat taskCount) JS.lit_0_8 /\
     Grader.o_score o = JS.of_nat taskPassed) /\
    (JS.lt (configured h "max-score") JS.zero = true ->
     Grader.o_maxScore o = configured h "max-score" /\
     Grader.o_score o =
       JS.mul (JS.div (JS.of_nat taskPassed) (JS.of_nat taskCount))
         (configured h "max-score")).
Proof.
  intros Hi Hs Hp Hc Hpos.
  destruct (grader_grade_with_leaves h inputs _
              (Grader.error_field (grader_execution h inputs)) _ _ _
              Hp Hc Hpos)
    as (o & Hg & _ & _ & Hst & Hlazy & Hweighted).
  destruct (grader_getInputs_scores h inputs Hi) as [Hmax _].
  exists o. split; [apply grader_emitted_on_success; assumption |].
  split; [exact Hst |]. rewrite Hmax in *. split.
  - intros [Hunset | Hzero]; apply Hlazy; [| exact Hzero].
    rewrite (configured_unset h _ Hunset). reflexivity.
  - intros Hneg. apply lt_zero_not_zero in Hneg.
    destruct (Hweighted Hneg) as (Hm & _ & Hsc). split; assumption.
Qed.

Lemma lazy_mode_when_max_score_is_zero_witness :
  exists o,
    Grader.emitted lazy_host
      = [("result",
          Grader.result_of lazy_host
            (Grader.mkInputs "unit" "" "gradle test" "" "" ""
               (JS.of_Z 600000) JS.zero JS.zero) o)] /\
    Grader.o_maxScore o = JS.of_nat 10 /\
    Grader.o_passScore o = JS.of_Z 8 /\
    Grader.o_score o = JS.of_nat 7 /\
    Grader.o_status o = st_fail.
Proof.
  destruct (lazy_mode_when_max_score_is_zero lazy_host
              (Grader.mkInputs "unit" "" "gradle test" "" "" ""
                 (JS.of_Z 600000) JS.zero JS.zero)
              [("S", VObject [("t0", VBool true); ("t1", VBool true);
                              ("t2", VBool true); ("t3", VBool true);
                              ("t4", VBool true); ("t5", VBool true);
                              ("t6", VBool true); ("t7", VBool false);
                              ("t8", VBool false); ("t9", VBool false)])]
              10 7)
    as (o & He & Hst & Hlazy & _);
    [vm_compute; reflexivity | vm_compute; reflexivity
    | vm_compute; reflexivity | vm_compute; reflexivity | lia |].
  destruct Hlazy as (Hm & Hp & Hsc); [left; reflexivity |].
  exists o. rewrite Hst, Hp, Hsc. repeat split; try assumption.
Defined.

(** C1 as stated fails: with the max-score [-5] and one passed leaf the
    maximal score of the envelope is [-5], not the number of leaves, and
    the score is [-5], not the number of passed leaves. *)
Lemma negative_max_score_is_not_lazy :
  Grader.getInputs negative_host
    = Return (Grader.mkInputs "unit" "" "gradle test" "" "" ""
                (JS.of_Z 600000) (JS.mul (JS.of_Z (-5)) JS.lit_0_8)
                (JS.of_Z (-5))) /\
  JS.lt (configured negative_host "max-score") JS.zero = true /\
  parseGradleTestResults "t PASSED" = Return [("t", VBool true)] /\
  Grader.countPassedTests [("t", VBool true)] (0, 0) = (1, 1) /\
  Grader.emitted negative_host =
    [("result",
      mkResult 1 st_fail (Some (JS.of_Z (-5)))
        [mkTestReport "unit" st_fail (Some "You need earn more score.")
           "gradle test <stdin>" "" 0
           (seconds_string (JS.div (JS.of_Z 1500) (JS.of_Z 1000)))
           (Some (JS.of_Z (-5)))])] /\
  JS.of_Z (-5) <> JS.of_nat 1.
Proof.
  repeat split; try (vm_compute; reflexivity).
  vm_compute. discriminate.
Qed.

(** C2: in a run whose tree has at least one leaf and whose configured
    max-score is positive, the score is
    [(taskPassed / taskCount) * maxScore], the pass threshold is the
    configured pass-score when that is positive and [maxScore * 0.8]
    otherwise, and the status is ['fail'] exactly when the score is below
    the threshold and ['pass'] otherwise. *)
Theorem weighted_mode_score_and_status
  (h : Host) (inputs : Grader.Inputs) (tree : object)
  (taskCount taskPassed : nat) :
  Grader.getInputs h = Return inputs ->
  Grader.run_setup h inputs = Return tt ->
  parseGradleTestResults (Grader.output (grader_execution h inputs))
    = Return tree ->
  Grader.countPassedTests tree (0, 0) = (taskCount, taskPassed) ->
  (0 < taskCount)%nat ->
  JS.gt (configured h "max-score") JS.zero = true ->
  exists o,
    Grader.emitted h = [("result", Grader.result_of h inputs o)] /\
    Grader.o_maxScore o = configured h "max-score" /\
    Grader.o_score o =
      JS.mul (JS.div (JS.of_nat taskPassed) (JS.of_nat taskCount))
        (configured h "max-score") /\
    Grader.o_passScore o =
      (if JS.gt (configured h "pass-score") JS.zero
       then configured h "pass-score"
       else JS.mul (configured h "max-score") JS.lit_0_8) /\
    (Grader.o_status o = st_fail <->
     JS.lt (Grader.o_score o) (Grader.o_passScore o) = true) /\
    (Grader.o_status o = st_pass <->
     JS.lt (Grader.o_score o) (Grader.o_passScore o) = false).
Proof.
  intros Hi Hs Hp Hc Hpos Hmaxpos.
  destruct (grader_grade_with_leaves h inputs _
              (Grader.error_field (grader_execution h inputs)) _ _ _
              Hp Hc Hpos)
    as (o & Hg & _ & _ & Hst & _ & Hweighted).
  destruct (grader_getInputs_scores h inputs Hi) as [Hmax Hpass].
  rewrite Hmax in Hweighted.
  destruct (Hweighted (gt_zero_not_zero _ Hmaxpos)) as (Hm & Hps & Hsc).
  exists o. split; [apply grader_emitted_on_success; assumption |].
  split; [exact Hm |].
  split; [exact Hsc |]. split; [rewrite Hps; exact Hpass |].
  rewrite Hst.
  destruct (JS.lt (Grader.o_score o) (Grader.o_passScore o));
    split; split; intros; solve [reflexivity | discriminate].
Qed.

Lemma weighted_mode_score_and_status_witness :
  exists o,
    Grader.emitted weighted_host
      = [("result",
          Grader.result_of weighted_host
            (Grader.mkInputs "unit" "" "gradle test" "" "" ""
               (JS.of_Z 600000) (JS.of_Z 40) (JS.of_Z 50)) o)] /\
    Grader.o_score o = JS.of_Z 40 /\
    Grader.o_passScore o = JS.of_Z 40 /\
    Grader.o_status o = st_pass.
Proof.
  destruct (weighted_mode_score_and_status weighted_host
              (Grader.mkInputs "unit" "" "gradle test" "" "" ""
                 (JS.of_Z 600000) (JS.of_Z 40) (JS.of_Z 50))
              [("S", VObject [("t0", VBool true); ("t1", VBool true);
                              ("t2", VBool true); ("t3", VBool true);
                              ("t4", VBool true); ("t5", VBool true);
                              ("t6", VBool true); ("t7", VBool true);
                              ("t8", VBool false); ("t9", VBool false)])]
              10 8)
    as (o & He & _ & Hsc & Hp & _ & Hpass);
    [vm_compute; reflexivity | vm_compute; reflexivity
    | vm_compute; reflexivity | vm_compute; reflexivity | lia
    | vm_compute; reflexivity |].
  exists o. split; [exact He |]. split; [exact Hsc |]. split; [exact Hp |].
  apply Hpass. rewrite Hsc, Hp. vm_compute. reflexivity.
Defined.

(** ** The fallback on the comparison of the output *)

Lemma grader_recorded_error (h : Host) (inputs : Grader.Inputs) (e : Thrown) :
  execSync h (Grader.command inputs)
    (test_options (Grader.input inputs) (Grader.timeout inputs)) = Throw e ->
  message e <> "" ->
  exists m,
    Grader.error_field (grader_execution h inputs) = Some m /\
    JS.truthy m = true /\
    m = (if JS.includes (message e) "ETIMEDOUT" then timeout_message
         else message e).
Proof.
  intros He Hne. unfold grader_execution, Grader.executeTest. rewrite He.
  simpl. eexists. split; [reflexivity |]. split; [| reflexivity].
  destruct (JS.includes (message e) "ETIMEDOUT"); [reflexivity |].
  destruct (message e); [contradiction | reflexivity].
Qed.

(** C3: in a run whose tree has no leaf and whose test command failed
    (with an error that carries a message, as every error of [execSync]
    does), the envelope has the status ['error'], the score 0 and the
    error as its message, and the expected output, the comparison method
    and the regular expression engine have no part in the outcome. *)
Theorem no_leaves_and_error_gives_error_status
  (h : Host) (inputs : Grader.Inputs) (tree : object) (taskPassed : nat)
  (e : Thrown) :
  Grader.getInputs h = Return inputs ->
  Grader.run_setup h inputs = Return tt ->
  execSync h (Grader.command inputs)
    (test_options (Grader.input inputs) (Grader.timeout inputs)) = Throw e ->
  message e <> "" ->
  parseGradleTestResults (Grader.output (grader_execution h inputs))
    = Return tree ->
  Grader.countPassedTests tree (0, 0) = (0, taskPassed) ->
  exists o,
    Grader.emitted h = [("result", Grader.result_of h inputs o)] /\
    Grader.o_status o = st_error /\
    Grader.o_score o = JS.zero /\
    Grader.o_message o = Grader.error_field (grader_execution h inputs) /\
    forall engine expected method,
      Grader.grade (with_regexTest h engine)
        (with_comparison inputs expected method)
        (Grader.output (grader_execution h inputs))
        (Grader.error_field (grader_execution h inputs)) = Return o.
Proof.
  intros Hi Hs He Hne Hp Hc.
  destruct (grader_recorded_error h inputs e He Hne) as (m & Hm & Ht & _).
  assert (Hg : forall h' inputs',
             Grader.maxScore inputs' = Grader.maxScore inputs ->
             Grader.passScore inputs' = Grader.passScore inputs ->
             Grader.grade h' inputs'
               (Grader.output (grader_execution h inputs))
               (Grader.error_field (grader_execution h inputs))
             = Return (Grader.mkOutcome st_error (Some m)
                         (Grader.maxScore inputs) (Grader.passScore inputs)
                         JS.zero 0 taskPassed)).
  { intros h' inputs' Emax Epass.
    rewrite (grader_grade_without_leaves h' inputs' _ _ _ _ Hp Hc).
    rewrite Hm, Emax, Epass. simpl. rewrite Ht. reflexivity. }
  eexists. split.
  - eapply grader_emitted_on_success; try eassumption.
    apply Hg; reflexivity.
  - simpl. repeat split; [symmetry; exact Hm |].
    intros engine expected method. apply Hg; reflexivity.
Qed.

Lemma no_leaves_and_error_gives_error_status_witness :
  let h := host_with [("test-name", "io"); ("command", "./a.out");
                      ("expected-output", "42");
                      ("comparison-method", "exact")]
             (Throw (mkThrown "Command failed: ./a.out" (Some "42") None)) in
  Grader.emitted h =
    [("result",
      mkResult 1 st_error (Some JS.zero)
        [mkTestReport "io" st_error (Some "Command failed: ./a.out")
           "./a.out <stdin>" "" 0
           (seconds_string (JS.div (JS.of_Z 1500) (JS.of_Z 1000)))
           (Some JS.zero)])].
Proof.
  intros h.
  destruct (no_leaves_and_error_gives_error_status h
              (Grader.mkInputs "io" "" "./a.out" "" "42" "exact"
                 (JS.of_Z 600000) JS.zero JS.zero)
              [] 0
              (mkThrown "Command failed: ./a.out" (Some "42") None))
    as (o & He & _);
    [vm_compute; reflexivity | vm_compute; reflexivity
    | vm_compute; reflexivity | discriminate
    | vm_compute; reflexivity | vm_compute; reflexivity |].
  vm_compute. reflexivity.
Defined.

(** C9: in a run whose tree has no leaf, whose test command succeeded and
    whose output matches, the envelope has the status ['pass'] and the
    configured max-score as its score: 0 when the max-score is unset. *)
Theorem no_leaves_and_match_gives_pass_with_max_score
  (h : Host) (inputs : Grader.Inputs) (out : string) (tree : object)
  (taskPassed : nat) :
  Grader.getInputs h = Return inputs ->
  Grader.run_setup h inputs = Return tt ->
  execSync h (Grader.command inputs)
    (test_options (Grader.input inputs) (Grader.timeout inputs))
    = Return out ->
  parseGradleTestResults (JS.trim out) = Return tree ->
  Grader.countPassedTests tree (0, 0) = (0, taskPassed) ->
  compareOutput h (JS.trim out) (Grader.expectedOutput inputs)
    (Grader.comparisonMethod inputs) = Return true ->
  exists o,
    Grader.emitted h = [("result", Grader.result_of h inputs o)] /\
    Grader.o_status o = st_pass /\
    Grader.o_score o = configured h "max-score" /\
    Grader.o_maxScore o = configured h "max-score" /\
    (raw_input h "max-score" = "" -> Grader.o_score o = JS.zero).
Proof.
  intros Hi Hs He Hp Hc Hm.
  assert (Hr : grader_execution h inputs
               = Grader.mkExecutionResult (JS.trim out) None).
  { unfold grader_execution, Grader.executeTest. rewrite He. reflexivity. }
  destruct (grader_getInputs_scores h inputs Hi) as [Hmax _].
  pose proof (grader_grade_without_leaves h inputs _ None _ _ Hp Hc) as Hg.
  simpl in Hg. rewrite Hm in Hg. simpl in Hg.
  eexists. split.
  - eapply grader_emitted_on_success; try eassumption.
    rewrite Hr. simpl. exact Hg.
  - simpl. rewrite Hmax. repeat split.
    intros Hunset. apply configured_unset. exact Hunset.
Qed.

Lemma no_leaves_and_match_gives_pass_with_max_score_witness :
  let h := host_with [("test-name", "io"); ("command", "./a.out");
                      ("expected-output", "42");
                      ("comparison-method", "exact")]
             (Return (" 42" ++ nl)) in
  Grader.emitted h =
    [("result",
      mkResult 1 st_pass (Some JS.zero)
        [mkTestReport "io" st_pass None
           "./a.out <stdin>" "" 0
           (seconds_string (JS.div (JS.of_Z 1500) (JS.of_Z 1000)))
           (Some JS.zero)])].
Proof.
  intros h.
  destruct (no_leaves_and_match_gives_pass_with_max_score h
              (Grader.mkInputs "io" "" "./a.out" "" "42" "exact"
                 (JS.of_Z 600000) JS.zero JS.zero)
              (" 42" ++ nl) [] 0)
    as (o & He & _);
    [vm_compute; reflexivity | vm_compute; reflexivity
    | vm_compute; reflexivity | vm_compute; reflexivity
    | vm_compute; reflexivity | vm_compute; reflexivity |].
  vm_compute. reflexivity.
Defined.

(** ** The process runner *)

(** C6, as amended: when the test command fails, [executeTest] of the
    version with hierarchy scoring returns the trimmed standard output
    that the error carries (the empty string when it carries none) with
    the error message; [executeTest] of [src/main.js] returns the error
    message only, and no output. *)
Theorem executeTest_keeps_partial_output
  (h : Host) (command input : string) (timeout : JS.number) (e : Thrown) :
  execSync h command (test_options input timeout) = Throw e ->
  let error :=
    if JS.includes (message e) "ETIMEDOUT" then timeout_message
    else message e in
  Grader.executeTest h command input timeout =
    Grader.mkExecutionResult
      (match stdout e with
       | Some partial => JS.trim partial
       | None => ""
       end)
      (Some error) /\
  MainJs.executeTest h command input timeout =
    MainJs.mkExecutionResult None (Some error).
Proof.
  intros He. unfold Grader.executeTest, MainJs.executeTest. rewrite He.
  split; reflexivity.
Qed.

Lemma executeTest_keeps_partial_output_witness :
  Grader.executeTest timeout_host "gradle test" "" (JS.of_Z 600000) =
    Grader.mkExecutionResult ("S > t0 PASSED" ++ nl ++ "S > t1")
      (Some timeout_message) /\
  MainJs.executeTest timeout_host "gradle test" "" (JS.of_Z 600000) =
    MainJs.mkExecutionResult None (Some timeout_message).
Proof.
  apply (executeTest_keeps_partial_output timeout_host "gradle test" ""
           (JS.of_Z 600000) timeout_failure).
  reflexivity.
Defined.

(** C6 as stated fails in [src/main.js]: the command was killed after it
    wrote a line of its report, and the object returned by [executeTest]
    has no output. *)
Lemma main_js_executeTest_discards_output :
  execSync timeout_host "gradle test" (test_options "" (JS.of_Z 600000))
    = Throw timeout_failure /\
  stdout timeout_failure = Some ("S > t0 PASSED" ++ nl ++ "S > t1 ") /\
  MainJs.output
    (MainJs.executeTest timeout_host "gradle test" "" (JS.of_Z 600000))
    = None.
Proof. repeat split. Qed.

(** How [executeTest] chooses the error message: the fixed string when
    the raw message contains [ETIMEDOUT] and the raw message, unchanged,
    when it does not; so for a raw message other than the fixed string,
    the error message is the fixed string if and only if the raw message
    contains [ETIMEDOUT]. *)
Theorem timeout_message_iff_text_mentions_etimedout
  (h : Host) (command input : string) (timeout : JS.number) (e : Thrown) :
  execSync h command (test_options input timeout) = Throw e ->
  let error :=
    Grader.error_field (Grader.executeTest h command input timeout) in
  (JS.includes (message e) "ETIMEDOUT" = true ->
   error = Some timeout_message) /\
  (JS.includes (message e) "ETIMEDOUT" = false ->
   error = Some (message e)) /\
  (message e <> timeout_message ->
   (error = Some timeout_message <->
    JS.includes (message e) "ETIMEDOUT" = true)).
Proof.
  intros He. unfold Grader.executeTest. rewrite He. simpl.
  destruct (JS.includes (message e) "ETIMEDOUT").
  - split; [reflexivity |]. split; [discriminate |].
    intros _. split; reflexivity.
  - split; [discriminate |]. split; [reflexivity |].
    intros Hne. split; [| discriminate].
    intros Heq. injection Heq as Heq. contradiction.
Qed.

Lemma timeout_message_iff_text_mentions_etimedout_witness :
  Grader.error_field
    (Grader.executeTest timeout_host "gradle test" "" (JS.of_Z 600000))
  = Some timeout_message.
Proof.
  pose proof (timeout_message_iff_text_mentions_etimedout timeout_host
                "gradle test" "" (JS.of_Z 600000) timeout_failure eq_refl)
    as H.
  cbv zeta in H. destruct H as (H & _). apply H. reflexivity.
Defined.

(** C7 fails on the code: the error message is to be the fixed string
    exactly for a time-based kill and the raw message for every other
    failure, but [executeTest] looks for the text [ETIMEDOUT] in the
    message. [grep ETIMEDOUT build.log] exits with the status 1, which is
    no time-based kill, and its message, which quotes the command, is
    replaced by the fixed string. *)
Lemma etimedout_text_is_classified_as_timeout :
  execSync grep_host "grep ETIMEDOUT build.log"
    (test_options "" (JS.of_Z 600000)) = Throw grep_failure /\
  ~ time_based_kill grep_failure /\
  Grader.error_field
    (Grader.executeTest grep_host "grep ETIMEDOUT build.log" ""
       (JS.of_Z 600000))
  = Some timeout_message /\
  Some timeout_message <> Some (message grep_failure).
Proof.
  repeat split; try (vm_compute; reflexivity); vm_compute; discriminate.
Qed.

(** ** The hierarchy parser *)

(** A branch segment that holds the leaf [false] is replaced by a new
    object. *)
Lemma walk_over_false_leaf (tests : object) (level next : string)
  (rest : list string) (isPassed : bool) :
  get tests level = Some (VBool false) ->
  walk (level :: next :: rest) isPassed tests =
  (o <- walk (next :: rest) isPassed [] ;;
   Return (set tests level (VObject o))).
Proof. intros Hg. simpl. rewrite Hg. reflexivity. Qed.

(** A branch segment that holds the leaf [true] is kept: the entry below
    it is dropped when one segment follows, and a [TypeError] is thrown
    when more follow. *)
Lemma walk_over_true_leaf (tests : object) (level next : string)
  (rest : list string) (isPassed : bool) :
  get tests level = Some (VBool true) ->
  walk (level :: next :: rest) isPassed tests =
  match rest with
  | [] => Return tests
  | [last] => Throw (cannot_set last)
  | after :: _ => Throw (cannot_read after)
  end.
Proof.
  intros Hg. simpl. rewrite Hg.
  destruct rest as [| after [| ? ?]]; reflexivity.
Qed.

(** C5 fails on the code when the earlier leaf is [true]: the leaf
    [false] is replaced by an object that holds the deeper entry, the leaf
    [true] is kept and the deeper entry is lost, and with two or more
    segments below the leaf [true] the parser throws a [TypeError], which
    ends the run in the envelope of the catch path. *)
Theorem true_leaf_is_not_coerced :
  parseGradleTestResults ("A FAILED" ++ nl ++ "A > B PASSED")
    = Return [("A", VObject [("B", VBool true)])] /\
  parseGradleTestResults ("A PASSED" ++ nl ++ "A > B PASSED")
    = Return [("A", VBool true)] /\
  parseGradleTestResults ("A PASSED" ++ nl ++ "A > B > C PASSED")
    = Throw (new_Error "Cannot set properties of undefined (setting 'C')") /\
  parseGradleTestResults ("A FAILED" ++ nl ++ "A > B > C PASSED")
    = Return [("A", VObject [("B", VObject [("C", VBool true)])])] /\
  Grader.emitted collision_host =
    [("result",
      mkResult 1 st_error None
        [mkTestReport "unit" st_error
           (Some "Cannot set properties of undefined (setting 'C')")
           "gradle test <stdin>" "" 0 number_zero None])].
Proof. repeat split; vm_compute; reflexivity. Qed.

(** ** The [src/main.js] version *)

Lemma main_js_countPassedTests_unchanged (node : object)
  (counters : nat * nat) :
  MainJs.countPassedTests node counters = counters.
Proof.
  unfold MainJs.countPassedTests. simpl.
  induction node as [| [key v] rest IH]; [reflexivity |].
  simpl. exact IH.
Qed.

Lemma main_js_run_try_cases (h : Host) :
  MainJs.run_try h initial =
  match MainJs.getInputs h with
  | Throw e => (Throw e, initial)
  | Return inputs =>
      match MainJs.run_setup h inputs with
      | Throw e => (Throw e, mkState (Some inputs) [])
      | Return _ =>
          let r := main_js_execution h inputs in
          match MainJs.grade h inputs (MainJs.output r) (MainJs.error_field r)
          with
          | Throw e => (Throw e, mkState (Some inputs) [])
          | Return o =>
              (Return tt,
               mkState (Some inputs)
                 [("result", MainJs.result_of h inputs o)])
          end
      end
  end.
Proof.
  unfold MainJs.run_try, mbind, lift, assign_inputs, setOutput,
    main_js_execution.
  destruct (MainJs.getInputs h) as [inputs | e]; [| reflexivity].
  simpl. destruct (MainJs.run_setup h inputs) as [[] | e]; [| reflexivity].
  destruct (MainJs.grade _ _ _ _); reflexivity.
Qed.

(** The outcome of [src/main.js], case by case: the tree has no part in
    it. *)
Lemma main_js_grade_cases (h : Host) (inputs : MainJs.Inputs)
  (output error : option string) :
  MainJs.grade h inputs output error =
  if Grader.error_truthy error then
    Return (MainJs.mkOutcome st_error error (MainJs.maxScore inputs) JS.zero)
  else
    matched <- MainJs.compare h output (MainJs.expectedOutput inputs)
                 (MainJs.comparisonMethod inputs) ;;
    if negb matched then
      Return (MainJs.mkOutcome st_fail
                (Some ("Output does not match expected: "
                       ++ MainJs.expectedOutput inputs ++ " Got: "
                       ++ MainJs.show output))
                (MainJs.maxScore inputs) JS.zero)
    else
      _ <- MainJs.parse output ;;
      if JS.strict_eq (MainJs.maxScore inputs) JS.zero then
        Return (MainJs.mkOutcome st_pass None (JS.of_nat 0) (JS.of_nat 0))
      else
        Return (MainJs.mkOutcome st_pass None (MainJs.maxScore inputs)
                  (JS.div (JS.of_nat 0) (JS.of_nat 0))).
Proof.
  unfold MainJs.grade.
  destruct (Grader.error_truthy error); [reflexivity |].
  destruct (MainJs.compare _ _ _ _) as [[|] | e]; simpl; try reflexivity.
  destruct (MainJs.parse output) as [tree | e]; simpl; [| reflexivity].
  rewrite main_js_countPassedTests_unchanged. reflexivity.
Qed.



(** ** The catch path *)

Lemma bind_Throw {A B : Type} (m : Exc A) (k : A -> Exc B) (e : Thrown) :
  bind m k = Throw e ->
  m = Throw e \/ exists a, m = Return a /\ k a = Throw e.
Proof.
  destruct m as [a | e']; simpl; intros E; [eauto |].
  left. injection E as <-. reflexivity.
Qed.

Ltac split_bind H :=
  let a := fresh "a" in
  let E := fresh "E" in
  apply bind_Throw in H; destruct H as [H | (a & E & H)].

(** The message of an error built from a non-empty prefix. *)
Ltac prefixed_message := simpl; discriminate.

Lemma getInput_error_message (h : Host) (key : string) (required : bool)
  (e : Thrown) :
  getInput h key required = Throw e -> message e <> "".
Proof.
  unfold getInput. destruct (_ && _); [| discriminate].
  intros E; injection E as <-. prefixed_message.
Qed.

Lemma grader_getInputs_error_message (h : Host) (e : Thrown) :
  Grader.getInputs h = Throw e -> message e <> "".
Proof.
  unfold Grader.getInputs, Grader.timeout_input, Grader.int_input. intros H.
  repeat (split_bind H; [eauto using getInput_error_message; discriminate |]).
  destruct (_ && _); [| discriminate].
  injection H as <-. prefixed_message.
Qed.

Lemma main_js_getInputs_error_message (h : Host) (e : Thrown) :
  MainJs.getInputs h = Throw e -> message e <> "".
Proof.
  unfold MainJs.getInputs, Grader.timeout_input, Grader.int_input. intros H.
  repeat (split_bind H; [eauto using getInput_error_message; discriminate |]).
  destruct (negb (known_method _));
    [injection H as <-; prefixed_message |].
  destruct (_ || _); [| discriminate].
  injection H as <-. prefixed_message.
Qed.

Lemma walk_error_message (hierarchy : list string) (isPassed : bool)
  (tests : object) (e : Thrown) :
  walk hierarchy isPassed tests = Throw e -> message e <> "".
Proof.
  revert tests. induction hierarchy as [| level rest IH]; intros tests;
    [discriminate |].
  simpl. destruct rest as [| next rest']; [discriminate |].
  destruct (get tests level) as [[[|] | o] |]; intros H.
  - split_bind H; [| discriminate].
    destruct rest' as [| after [| ? ?]]; simpl in H; try discriminate;
      injection H as <-; prefixed_message.
  - split_bind H; [eauto | discriminate].
  - split_bind H; [eauto | discriminate].
  - split_bind H; [eauto | discriminate].
Qed.

Lemma parse_lines_error_message (lines : list string) (tests : object)
  (e : Thrown) :
  parse_lines lines tests = Throw e -> message e <> "".
Proof.
  revert tests. induction lines as [| line rest IH]; intros tests;
    [discriminate |].
  simpl. intros H. split_bind H; [| eauto].
  unfold parse_line in H.
  destruct (line_match _) as [[g1 g2] |]; [| discriminate].
  eauto using walk_error_message.
Qed.

Lemma parse_error_message (testResults : string) (e : Thrown) :
  parseGradleTestResults testResults = Throw e -> message e <> "".
Proof. apply parse_lines_error_message. Qed.

Lemma compareOutput_error_message (h : Host) (output expected method : string)
  (e : Thrown) :
  host_errors_have_messages h ->
  compareOutput h output expected method = Throw e -> message e <> "".
Proof.
  intros [_ Hre]. unfold compareOutput.
  destruct (String.eqb method "exact"); [discriminate |].
  destruct (String.eqb method "contains"); [discriminate |].
  destruct (String.eqb method "regex"); [eauto |].
  intros E; injection E as <-. prefixed_message.
Qed.

Lemma grader_grade_error_message (h : Host) (inputs : Grader.Inputs)
  (output : string) (error : option string) (e : Thrown) :
  host_errors_have_messages h ->
  Grader.grade h inputs output error = Throw e -> message e <> "".
Proof.
  intros Hh. unfold Grader.grade. intros H.
  split_bind H; [eauto using parse_error_message |].
  destruct (Grader.countPassedTests a (0, 0)) as [taskCount taskPassed].
  destruct (0 <? taskCount)%nat.
  - destruct (JS.strict_eq _ _); destruct (JS.lt _ _); discriminate.
  - destruct (Grader.error_truthy error); [discriminate |].
    split_bind H; [eauto using compareOutput_error_message |].
    destruct (negb a0); discriminate.
Qed.

Lemma main_js_grade_error_message (h : Host) (inputs : MainJs.Inputs)
  (output error : option string) (e : Thrown) :
  host_errors_have_messages h ->
  MainJs.grade h inputs output error = Throw e -> message e <> "".
Proof.
  intros Hh. rewrite main_js_grade_cases.
  destruct (Grader.error_truthy error); [discriminate |]. intros H.
  split_bind H.
  - unfold MainJs.compare in H. destruct output as [out |];
      [eauto using compareOutput_error_message |].
    destruct Hh as [_ Hre].
    destruct (String.eqb _ "exact"); [discriminate |].
    destruct (String.eqb _ "contains");
      [injection H as <-; prefixed_message |].
    destruct (String.eqb _ "regex"); [eauto |].
    injection H as <-. prefixed_message.
  - destruct (negb a); [discriminate |].
    split_bind H; [| destruct (JS.strict_eq _ _); discriminate].
    unfold MainJs.parse in H. destruct output as [out |];
      [eauto using parse_error_message |].
    injection H as <-. prefixed_message.
Qed.

Lemma setup_error_message (h : Host) (command : string)
  (options : ExecOptions) (e : Thrown) :
  host_errors_have_messages h ->
  (_ <- execSync h command options ;; Return tt) = Throw e ->
  message e <> "".
Proof.
  intros [Hex _] H. split_bind H; [eauto | discriminate].
Qed.

Lemma grader_run_try_error_message (h : Host) (e : Thrown)
  (st : State Grader.Inputs) :
  host_errors_have_messages h ->
  Grader.run_try h initial = (Throw e, st) -> message e <> "".
Proof.
  intros Hh. rewrite grader_run_try_cases.
  destruct (Grader.getInputs h) as [inputs | e0] eqn:Hi.
  - destruct (Grader.run_setup h inputs) as [[] | e1] eqn:Hs.
    + cbv zeta. destruct (Grader.grade _ _ _ _) as [o | e2] eqn:Hg;
        [discriminate |].
      intros E; injection E as <- _. eauto using grader_grade_error_message.
    + intros E; injection E as <- _. unfold Grader.run_setup in Hs.
      destruct (JS.truthy _); [| discriminate].
      eauto using setup_error_message.
  - intros E; injection E as <- _. eauto using grader_getInputs_error_message.
Qed.

Lemma main_js_run_try_error_message (h : Host) (e : Thrown)
  (st : State MainJs.Inputs) :
  host_errors_have_messages h ->
  MainJs.run_try h initial = (Throw e, st) -> message e <> "".
Proof.
  intros Hh. rewrite main_js_run_try_cases.
  destruct (MainJs.getInputs h) as [inputs | e0] eqn:Hi.
  - destruct (MainJs.run_setup h inputs) as [[] | e1] eqn:Hs.
    + cbv zeta. destruct (MainJs.grade _ _ _ _) as [o | e2] eqn:Hg;
        [discriminate |].
      intros E; injection E as <- _. eauto using main_js_grade_error_message.
    + intros E; injection E as <- _. unfold MainJs.run_setup in Hs.
      destruct (JS.truthy _); [| discriminate].
      eauto using setup_error_message.
  - intros E; injection E as <- _.
    eauto using main_js_getInputs_error_message.
Qed.

Lemma grader_run_try_error_state (h : Host) (e : Thrown)
  (st : State Grader.Inputs) :
  Grader.run_try h initial = (Throw e, st) ->
  outputs st = [] /\
  (Grader.getInputs h = Throw e -> inputs_var st = None).
Proof.
  rewrite grader_run_try_cases.
  destruct (Grader.getInputs h) as [inputs | e0].
  - destruct (Grader.run_setup h inputs) as [[] | e1].
    + cbv zeta. destruct (Grader.grade _ _ _ _) as [o | e2];
        [discriminate |].
      intros E; injection E as _ <-. split; [reflexivity | discriminate].
    + intros E; injection E as _ <-. split; [reflexivity | discriminate].
  - intros E; injection E as _ <-. split; reflexivity.
Qed.

Lemma main_js_run_try_error_state (h : Host) (e : Thrown)
  (st : State MainJs.Inputs) :
  MainJs.run_try h initial = (Throw e, st) ->
  outputs st = [] /\
  (MainJs.getInputs h = Throw e -> inputs_var st = None).
Proof.
  rewrite main_js_run_try_cases.
  destruct (MainJs.getInputs h) as [inputs | e0].
  - destruct (MainJs.run_setup h inputs) as [[] | e1].
    + cbv zeta. destruct (MainJs.grade _ _ _ _) as [o | e2];
        [discriminate |].
      intros E; injection E as _ <-. split; [reflexivity | discriminate].
    + intros E; injection E as _ <-. split; [reflexivity | discriminate].
  - intros E; injection E as _ <-. split; reflexivity.
Qed.

Lemma error_result_is_error_envelope (testName command input : option string)
  (e : Thrown) :
  is_error_envelope (error_result testName command input e) (message e).
Proof.
  unfold is_error_envelope, error_result. simpl.
  repeat split. eexists. repeat split.
Qed.

(** C8: every run of either version ends with exactly one output, the
    result envelope, and [run] itself throws nothing. When the [try]
    block throws [e], that envelope is the one of the catch path: status
    ['error'], the message of [e], which is not empty since every error
    of the host carries a message, [name], [command] and [input] from the
    variable [inputs], and the placeholders when [getInputs] had not
    returned. *)
Theorem run_always_emits_one_envelope (h : Host) :
  (exists r st,
      Grader.run h initial = (Return tt, st) /\
      outputs st = [("result", r)]) /\
  (exists r st,
      MainJs.run h initial = (Return tt, st) /\
      outputs st = [("result", r)]) /\
  (forall e st,
      Grader.run_try h initial = (Throw e, st) ->
      exists r,
        Grader.emitted h = [("result", r)] /\
        is_error_envelope r (message e) /\
        (host_errors_have_messages h -> message e <> "") /\
        r = error_result (option_map Grader.testName (inputs_var st))
              (option_map Grader.command (inputs_var st))
              (option_map Grader.input (inputs_var st)) e /\
        (Grader.getInputs h = Throw e -> r = placeholder_result e)) /\
  (forall e st,
      MainJs.run_try h initial = (Throw e, st) ->
      exists r,
        MainJs.emitted h = [("result", r)] /\
        is_error_envelope r (message e) /\
        (host_errors_have_messages h -> message e <> "") /\
        r = error_result (option_map MainJs.testName (inputs_var st))
              (option_map MainJs.command (inputs_var st))
              (option_map MainJs.input (inputs_var st)) e /\
        (MainJs.getInputs h = Throw e -> r = placeholder_result e)).
Proof.
  split; [| split; [| split]].
  - unfold Grader.run, try_catch. rewrite grader_run_try_cases.
    destruct (Grader.getInputs h) as [inputs | e]; [| simpl; do 2 eexists; split; reflexivity].
    destruct (Grader.run_setup h inputs) as [[] | e]; [| simpl; do 2 eexists; split; reflexivity].
    cbv zeta.
    destruct (Grader.grade _ _ _ _); simpl; do 2 eexists; split; reflexivity.
  - unfold MainJs.run, try_catch. rewrite main_js_run_try_cases.
    destruct (MainJs.getInputs h) as [inputs | e]; [| simpl; do 2 eexists; split; reflexivity].
    destruct (MainJs.run_setup h inputs) as [[] | e]; [| simpl; do 2 eexists; split; reflexivity].
    cbv zeta.
    destruct (MainJs.grade _ _ _ _); simpl; do 2 eexists; split; reflexivity.
  - intros e st Ht.
    destruct (grader_run_try_error_state h e st Ht) as [Hout Hnone].
    eexists.
    split; [unfold Grader.emitted, Grader.run, try_catch; rewrite Ht;
            unfold Grader.run_catch, setOutput; simpl; rewrite Hout;
            reflexivity |].
    split; [apply error_result_is_error_envelope |].
    split; [eauto using grader_run_try_error_message |].
    split; [reflexivity |].
    intros Hi. rewrite (Hnone Hi). reflexivity.
  - intros e st Ht.
    destruct (main_js_run_try_error_state h e st Ht) as [Hout Hnone].
    eexists.
    split; [unfold MainJs.emitted, MainJs.run, try_catch; rewrite Ht;
            unfold MainJs.run_catch, setOutput; simpl; rewrite Hout;
            reflexivity |].
    split; [apply error_result_is_error_envelope |].
    split; [eauto using main_js_run_try_error_message |].
    split; [reflexivity |].
    intros Hi. rewrite (Hnone Hi). reflexivity.
Qed.

Lemma run_always_emits_one_envelope_witness :
  Grader.emitted unnamed_host =
    [("result",
      mkResult 1 st_error None
        [mkTestReport "Unknown Test" st_error
           (Some "Input required and not supplied: test-name")
           "Unknown Command <stdin>" "" 0 number_zero None])] /\
  host_errors_have_messages unnamed_host.
Proof.
  destruct (run_always_emits_one_envelope unnamed_host)
    as (_ & _ & Hg & _).
  destruct (Hg (new_Error "Input required and not supplied: test-name")
              initial)
    as (r & He & _ & _ & _ & Hp); [vm_compute; reflexivity |].
  rewrite He, Hp; [| vm_compute; reflexivity].
  split; [reflexivity |].
  split; intros ? ? e; simpl; [destruct (opt_stdio_inherit _) |];
    discriminate.
Defined.

(** ** The pattern of a report line *)

Lemma starts_with_append (p r : string) : JS.starts_with p (p ++ r) = true.
Proof.
  induction p as [| c p IH]; [reflexivity |].
  simpl. rewrite Ascii.eqb_refl. exact IH.
Qed.

Lemma starts_with_inv (p s : string) :
  JS.starts_with p s = true -> exists r, s = p ++ r.
Proof.
  revert s. induction p as [| c p IH]; intros s; [exists s; reflexivity |].
  destruct s as [| d s]; simpl; [discriminate |].
  intros H. apply andb_prop in H. destruct H as [Hc Hp].
  apply Ascii.eqb_eq in Hc. subst d.
  destruct (IH s Hp) as [r ->]. exists r. reflexivity.
Qed.

Lemma match_status_sound (s token : string) :
  match_status s = Some token ->
  (token = "PASSED" \/ token = "FAILED") /\ exists r, s = token ++ r.
Proof.
  unfold match_status.
  destruct (JS.starts_with "PASSED" s) eqn:Hp.
  - intros E; injection E as <-. split; [left; reflexivity |].
    apply starts_with_inv. exact Hp.
  - destruct (JS.starts_with "FAILED" s) eqn:Hf; [| discriminate].
    intros E; injection E as <-. split; [right; reflexivity |].
    apply starts_with_inv. exact Hf.
Qed.

Lemma match_status_complete (token r : string) :
  token = "PASSED" \/ token = "FAILED" ->
  match_status (token ++ r) = Some token.
Proof. intros [-> | ->]; reflexivity. Qed.

(** A token does not start with white space. *)
Lemma match_spaces_status_token (token r : string) :
  token = "PASSED" \/ token = "FAILED" ->
  match_spaces_status (token ++ r) = None.
Proof. intros [-> | ->]; reflexivity. Qed.

Lemma match_spaces_status_sound (s token : string) :
  match_spaces_status s = Some token ->
  exists spaces r,
    s = spaces ++ token ++ r /\ spaces <> "" /\
    all_chars JS.is_space spaces = true /\
    (token = "PASSED" \/ token = "FAILED").
Proof.
  induction s as [| c t IH]; simpl; [discriminate |].
  destruct (JS.is_space c) eqn:Hc; [| discriminate].
  destruct (match_spaces_status t) as [token' |] eqn:Ht.
  - intros E; injection E as ->.
    destruct (IH eq_refl) as (spaces & r & -> & _ & Hsp & Htok).
    exists (String c spaces), r. simpl. rewrite Hc, Hsp.
    repeat split; try assumption; discriminate.
  - intros Hm. destruct (match_status_sound _ _ Hm) as [Htok [r ->]].
    exists (String c ""), r. simpl. rewrite Hc.
    repeat split; try assumption; discriminate.
Qed.

Lemma match_spaces_status_complete (spaces token r : string) :
  spaces <> "" ->
  all_chars JS.is_space spaces = true ->
  token = "PASSED" \/ token = "FAILED" ->
  match_spaces_status (spaces ++ token ++ r) = Some token.
Proof.
  intros Hne Hsp Htok. induction spaces as [| c sp IH]; [contradiction |].
  simpl in Hsp. apply andb_prop in Hsp. destruct Hsp as [Hc Hsp].
  simpl. rewrite Hc. destruct sp as [| d sp].
  - simpl. rewrite match_spaces_status_token by assumption.
    apply match_status_complete. assumption.
  - rewrite IH; [reflexivity | discriminate | assumption].
Qed.

Lemma match_here_sound (s g1 g2 : string) :
  match_here s = Some (g1, g2) ->
  exists spaces r, s = g1 ++ spaces ++ g2 ++ r /\ match_parts g1 spaces g2.
Proof.
  revert g1. induction s as [| c t IH]; intros g1; simpl; [discriminate |].
  destruct (JS.is_line_terminator c) eqn:Hc; [discriminate |].
  destruct (match_here t) as [[g1' g2'] |] eqn:Ht.
  - intros E; injection E as <- <-.
    destruct (IH g1' eq_refl) as (spaces & r & -> & _ & Hp & Hrest).
    exists spaces, r. split; [reflexivity |]. unfold match_parts. simpl.
    rewrite Hc, Hp. repeat split; try apply Hrest; discriminate.
  - destruct (match_spaces_status t) as [token |] eqn:Hs; [| discriminate].
    intros E; injection E as <- <-.
    destruct (match_spaces_status_sound _ _ Hs)
      as (spaces & r & -> & Hne & Hsp & Htok).
    exists spaces, r. split; [reflexivity |]. unfold match_parts. simpl.
    rewrite Hc. repeat split; try assumption; discriminate.
Qed.

(** Where the pattern can match at the start, [match_here] finds a
    match, and no match there has a longer first group. *)
Lemma match_here_longest (prefix spaces token r : string) :
  match_parts prefix spaces token ->
  exists g1 g2,
    match_here (prefix ++ spaces ++ token ++ r) = Some (g1, g2) /\
    String.length prefix <= String.length g1.
Proof.
  intros (Hne & Hp & Hsne & Hsp & Htok).
  induction prefix as [| c p IH]; [contradiction |].
  simpl in Hp. apply andb_prop in Hp. destruct Hp as [Hc Hp].
  apply negb_true_iff in Hc. simpl. rewrite Hc.
  destruct p as [| d p].
  - simpl.
    destruct (match_here (spaces ++ token ++ r)) as [[g1' g2'] |].
    + exists (String c g1'), g2'. split; [reflexivity | simpl; lia].
    + rewrite match_spaces_status_complete by assumption.
      exists (String c ""), token. split; [reflexivity | simpl; lia].
  - destruct IH as (g1' & g2' & Hm & Hlen); [discriminate | exact Hp |].
    rewrite Hm. exists (String c g1'), g2'.
    split; [reflexivity | simpl in *; lia].
Qed.

Lemma line_match_sound (l g1 g2 : string) :
  line_match l = Some (g1, g2) ->
  exists before t,
    l = before ++ t /\ match_here t = Some (g1, g2) /\
    forall before' t',
      l = before' ++ t' ->
      String.length before' < String.length before ->
      match_here t' = None.
Proof.
  induction l as [| c t IH].
  - simpl. discriminate.
  - intros H. destruct (match_here (String c t)) as [m |] eqn:Hm.
    + exists "", (String c t). split; [reflexivity |].
      split; [| simpl; intros; lia].
      rewrite <- H. simpl. simpl in Hm. rewrite Hm. reflexivity.
    + assert (Ht : line_match t = Some (g1, g2)).
      { rewrite <- H. simpl. simpl in Hm. rewrite Hm. reflexivity. }
      destruct (IH Ht) as (before & t0 & -> & Hm0 & Hleft).
      exists (String c before), t0. split; [reflexivity |].
      split; [exact Hm0 |].
      intros before' t' Heq Hlen. destruct before' as [| d b'].
      * simpl in Heq. subst t'. exact Hm.
      * simpl in Heq. injection Heq as _ Heq.
        apply (Hleft b' t' Heq). simpl in Hlen. lia.
Qed.

Lemma line_match_complete (before t : string) :
  match_here t <> None -> line_match (before ++ t) <> None.
Proof.
  intros Hm. induction before as [| c b IH].
  - simpl. destruct t as [| c t]; simpl in *.
    + exact Hm.
    + destruct (JS.is_line_terminator c); [contradiction |].
      destruct (match_here t) as [[? ?] |]; [discriminate |].
      destruct (match_spaces_status t); [discriminate | contradiction].
  - change (line_match (String c (b ++ t)) <> None).
    simpl. destruct (JS.is_line_terminator c); [exact IH |].
    destruct (match_here (b ++ t)) as [[? ?] |]; [discriminate |].
    destruct (match_spaces_status (b ++ t)); [discriminate | exact IH].
Qed.

(** C4, as amended: the parser takes up exactly the trimmed lines in
    which a prefix of one or more characters, one or more white space
    characters and the token [PASSED] or [FAILED] follow one another, and
    leaves the tree as it is on every other line. The prefix is greedy:
    the match starts at the first position where one can start, and its
    prefix is the longest there, so ["A PASSED B FAILED"] gives the path
    [["A PASSED B"]] and the token [FAILED]. *)
Theorem line_match_greedy_characterization :
  (forall l : string, line_match l <> None <-> has_match l) /\
  (forall (tests : object) (line : string),
      line_match (JS.trim line) = None ->
      parse_line tests line = Return tests) /\
  (forall (tests : object) (line g1 g2 : string),
      line_match (JS.trim line) = Some (g1, g2) ->
      parse_line tests line =
        walk (split_hierarchy g1) (String.eqb g2 "PASSED") tests) /\
  (forall l g1 g2 : string,
      line_match l = Some (g1, g2) ->
      exists before spaces rest,
        l = before ++ g1 ++ spaces ++ g2 ++ rest /\
        match_parts g1 spaces g2 /\
        (forall prefix spaces' token rest',
            g1 ++ spaces ++ g2 ++ rest
              = prefix ++ spaces' ++ token ++ rest' ->
            match_parts prefix spaces' token ->
            String.length prefix <= String.length g1) /\
        (forall before' prefix spaces' token rest',
            l = before' ++ prefix ++ spaces' ++ token ++ rest' ->
            match_parts prefix spaces' token ->
            String.length before <= String.length before')) /\
  line_match "A PASSED B FAILED" = Some ("A PASSED B", "FAILED") /\
  parseGradleTestResults "A PASSED B FAILED"
    = Return [("A PASSED B", VBool false)].
Proof.
  split; [| split; [| split; [| split; [| split]]]].
  - intros l. split.
    + destruct (line_match l) as [[g1 g2] |] eqn:Hm; [| contradiction].
      intros _. destruct (line_match_sound _ _ _ Hm) as (before & t & -> & Hh & _).
      destruct (match_here_sound _ _ _ Hh) as (spaces & r & -> & Hparts).
      exists before, g1, spaces, g2, r. split; [reflexivity | exact Hparts].
    + intros (before & prefix & spaces & token & rest & -> & Hparts).
      apply line_match_complete.
      destruct (match_here_longest prefix spaces token rest Hparts)
        as (g1 & g2 & Hm & _).
      rewrite Hm. discriminate.
  - intros tests line Hm. unfold parse_line. rewrite Hm. reflexivity.
  - intros tests line g1 g2 Hm. unfold parse_line. rewrite Hm. reflexivity.
  - intros l g1 g2 Hm.
    destruct (line_match_sound _ _ _ Hm) as (before & t & -> & Hh & Hleft).
    destruct (match_here_sound _ _ _ Hh) as (spaces & r & -> & Hparts).
    exists before, spaces, r. split; [reflexivity |]. split; [exact Hparts |].
    split.
    + intros prefix spaces' token rest' Heq Hparts'.
      destruct (match_here_longest prefix spaces' token rest' Hparts')
        as (g1' & g2' & Hm' & Hlen).
      rewrite <- Heq, Hh in Hm'. injection Hm' as <- <-. exact Hlen.
    + intros before' prefix spaces' token rest' Heq Hparts'.
      destruct (Nat.le_gt_cases (String.length before)
                  (String.length before')) as [Hle | Hgt]; [exact Hle |].
      exfalso.
      destruct (match_here_longest prefix spaces' token rest' Hparts')
        as (g1' & g2' & Hm' & _).
      rewrite (Hleft before' _ Heq Hgt) in Hm'. discriminate.
  - reflexivity.
  - reflexivity.
Qed.

Lemma line_match_greedy_characterization_witness :
  has_match "A PASSED B FAILED" /\
  exists before spaces rest,
    "A PASSED B FAILED" = before ++ "A PASSED B" ++ spaces ++ "FAILED" ++ rest
    /\ match_parts "A PASSED B" spaces "FAILED".
Proof.
  destruct line_match_greedy_characterization as (Hiff & _ & _ & Hgreedy & _).
  split.
  - apply Hiff. vm_compute. discriminate.
  - destruct (Hgreedy "A PASSED B FAILED" "A PASSED B" "FAILED")
      as (before & spaces & rest & Heq & Hparts & _);
      [vm_compute; reflexivity |].
    exists before, spaces, rest. split; assumption.
Defined.

(** C4 as stated fails: on ["A PASSED B FAILED"] the prefix is not the
    shortest one, ["A"] with the token [PASSED], which is a match of the
    pattern too, but the longest one, and the tree holds the failed leaf
    ["A PASSED B"]. *)
Lemma prefix_is_not_shortest_match :
  "A PASSED B FAILED" = "" ++ "A" ++ " " ++ "PASSED" ++ " B FAILED" /\
  match_parts "A" " " "PASSED" /\
  line_match "A PASSED B FAILED" <> Some ("A", "PASSED") /\
  line_match "A PASSED B FAILED" = Some ("A PASSED B", "FAILED") /\
  parseGradleTestResults "A PASSED B FAILED"
    <> Return [("A", VBool true)] /\
  parseGradleTestResults "A PASSED B FAILED"
    = Return [("A PASSED B", VBool false)].
Proof.
  unfold match_parts.
  repeat split; try (vm_compute; reflexivity); try discriminate;
    try (left; reflexivity); vm_compute; discriminate.
Qed.

(** * Further properties of the code *)

(** ** Trimming *)

Lemma trim_start_head (s : string) :
  match JS.trim_start s with
  | EmptyString => True
  | String c _ => JS.is_space c = false
  end.
Proof.
  induction s as [| c t IH]; simpl; [exact I |].
  destruct (JS.is_space c) eqn:Hc; [exact IH | exact Hc].
Qed.

Lemma trim_end_idempotent (s : string) :
  JS.trim_end (JS.trim_end s) = JS.trim_end s.
Proof.
  induction s as [| c t IH]; [reflexivity |].
  simpl. destruct (JS.is_space c && JS.is_empty (JS.trim_end t)) eqn:Hc;
    [reflexivity |].
  simpl. rewrite IH, Hc. reflexivity.
Qed.

Lemma trim_end_head (s : string) :
  match s with
  | EmptyString => True
  | String c _ => JS.is_space c = false
  end ->
  JS.trim_start (JS.trim_end s) = JS.trim_end s.
Proof.
  destruct s as [| c t]; [reflexivity |].
  intros Hc. simpl. rewrite Hc. simpl. rewrite Hc. reflexivity.
Qed.

Lemma trim_idempotent (s : string) : JS.trim (JS.trim s) = JS.trim s.
Proof.
  unfold JS.trim.
  rewrite (trim_end_head (JS.trim_start s) (trim_start_head s)).
  apply trim_end_idempotent.
Qed.

(** ** The comparator *)

Lemma includes_unfold (s sub : string) :
  JS.includes s sub =
  JS.starts_with sub s ||
  match s with
  | EmptyString => false
  | String _ t => JS.includes t sub
  end.
Proof. destruct s; reflexivity. Qed.

Lemma includes_iff_substring (s sub : string) :
  JS.includes s sub = true <-> exists a b, s = a ++ sub ++ b.
Proof.
  split.
  - induction s as [| c t IH]; rewrite includes_unfold; intros H;
      apply orb_prop in H; destruct H as [H | H].
    + apply starts_with_inv in H. destruct H as [r ->].
      exists "", r. reflexivity.
    + discriminate.
    + apply starts_with_inv in H. destruct H as [r ->].
      exists "", r. reflexivity.
    + destruct (IH H) as (a & b & ->). exists (String c a), b. reflexivity.
  - intros (a & b & ->). induction a as [| c a IH].
    + rewrite includes_unfold. simpl. rewrite starts_with_append.
      reflexivity.
    + change (String c a ++ sub ++ b) with (String c (a ++ sub ++ b)).
      rewrite includes_unfold, IH. apply orb_true_r.
Qed.

(** X1: with the method ['contains'] the comparator never throws, and it
    answers [true] exactly when the expected text occurs somewhere in the
    output. *)
Theorem compare_contains_iff_substring (h : Host) (output expected : string) :
  (exists matched, compareOutput h output expected "contains"
                   = Return matched) /\
  (compareOutput h output expected "contains" = Return true <->
   exists before after, output = before ++ expected ++ after).
Proof.
  unfold compareOutput. simpl. split; [eexists; reflexivity |].
  rewrite <- includes_iff_substring. split.
  - intros E; injection E as E. exact E.
  - intros E. rewrite E. reflexivity.
Qed.

(** X2: an output that matches with the method ['exact'] matches with
    the method ['contains'] too, and with ['exact'] the comparator
    answers [true] exactly on equal strings. *)
Theorem compare_exact_implies_contains (h : Host) (output expected : string) :
  compareOutput h output expected "exact" = Return true ->
  output = expected /\
  compareOutput h output expected "contains" = Return true.
Proof.
  unfold compareOutput. simpl. intros E. injection E as E.
  apply String.eqb_eq in E. subst expected. split; [reflexivity |].
  f_equal. apply includes_iff_substring. exists "", "".
  simpl. clear. induction output as [| c t IH]; [reflexivity |].
  simpl. f_equal. exact IH.
Qed.

Lemma compare_exact_implies_contains_witness :
  compareOutput exact_host "42" "42" "contains" = Return true.
Proof.
  apply (compare_exact_implies_contains exact_host "42" "42"). reflexivity.
Defined.

(** A method other than ['exact'], ['contains'] and ['regex'] makes the
    comparator throw, whatever the output and the expected text. *)
Lemma compare_unknown_method_throws (h : Host)
  (output expected method : string) :
  known_method method = false ->
  compareOutput h output expected method = Throw (invalid_method method) /\
  message (invalid_method method) = "Invalid comparison method: " ++ method.
Proof.
  unfold known_method, compareOutput. intros H.
  apply orb_false_elim in H. destruct H as [H Hr].
  apply orb_false_elim in H. destruct H as [He Hc].
  rewrite He, Hc, Hr. split; reflexivity.
Qed.

(** ** Reading and validating the inputs *)

Lemma truthy_false (s : string) : JS.truthy s = false <-> s = "".
Proof. destruct s; cbv; split; intros; congruence. Qed.

Lemma truthy_true (s : string) : JS.truthy s = true <-> s <> "".
Proof. destruct s; cbv; split; intros; congruence. Qed.

Lemma getInput_required (h : Host) (key : string) :
  getInput h key true =
  if JS.truthy (raw_input h key) then Return (JS.trim (raw_input h key))
  else Throw (new_Error ("Input required and not supplied: " ++ key)).
Proof. unfold getInput. simpl. destruct (JS.truthy _); reflexivity. Qed.

(** The inputs of the version with hierarchy scoring, once the three
    checks have passed. *)
Lemma grader_getInputs_value (h : Host) :
  JS.truthy (raw_input h "test-name") = true ->
  JS.truthy (raw_input h "command") = true ->
  JS.truthy (JS.trim (raw_input h "comparison-method"))
  && negb (known_method (JS.trim (raw_input h "comparison-method"))) = false ->
  Grader.getInputs h =
  Return (Grader.mkInputs
            (JS.trim (raw_input h "test-name"))
            (JS.trim (raw_input h "setup-command"))
            (JS.trim (raw_input h "command"))
            (JS.trim (raw_input h "input"))
            (JS.trim (raw_input h "expected-output"))
            (JS.trim (raw_input h "comparison-method"))
            (JS.mul (if JS.truthy (JS.trim (raw_input h "timeout"))
                     then parseFloat h (JS.trim (raw_input h "timeout"))
                     else JS.of_Z 10) (JS.of_Z 60000))
            (if JS.gt (configured h "pass-score") JS.zero
             then configured h "pass-score"
             else JS.mul (configured h "max-score") JS.lit_0_8)
            (configured h "max-score")).
Proof.
  intros Hn Hc Hm.
  unfold Grader.getInputs, Grader.timeout_input, Grader.int_input.
  rewrite !getInput_required, Hn, Hc, !getInput_optional. simpl bind.
  rewrite Hm, trim_idempotent. reflexivity.
Qed.

Lemma grader_getInputs_no_name (h : Host) :
  raw_input h "test-name" = "" ->
  Grader.getInputs h
  = Throw (new_Error "Input required and not supplied: test-name").
Proof.
  intros E. unfold Grader.getInputs. rewrite getInput_required, E.
  reflexivity.
Qed.

Lemma grader_getInputs_no_command (h : Host) :
  raw_input h "test-name" <> "" ->
  raw_input h "command" = "" ->
  Grader.getInputs h
  = Throw (new_Error "Input required and not supplied: command").
Proof.
  intros Hn E. apply truthy_true in Hn. unfold Grader.getInputs.
  rewrite !getInput_required, Hn, E. reflexivity.
Qed.

Lemma grader_getInputs_bad_method (h : Host) :
  raw_input h "test-name" <> "" ->
  raw_input h "command" <> "" ->
  JS.trim (raw_input h "comparison-method") <> "" ->
  known_method (JS.trim (raw_input h "comparison-method")) = false ->
  Grader.getInputs h
  = Throw (invalid_method (JS.trim (raw_input h "comparison-method"))).
Proof.
  intros Hn Hc Hm Hk. apply truthy_true in Hn, Hc, Hm.
  unfold Grader.getInputs, Grader.timeout_input, Grader.int_input.
  rewrite !getInput_required, Hn, Hc, !getInput_optional. simpl bind.
  rewrite Hm, Hk. reflexivity.
Qed.

Lemma method_check_passes (method : string) :
  method = "" \/ known_method method = true ->
  JS.truthy method && negb (known_method method) = false.
Proof.
  intros [-> | Hk]; [reflexivity |]. rewrite Hk. apply andb_false_r.
Qed.

(** The inputs that [getInputs] returns, and the checks they passed. *)
Lemma grader_getInputs_returned (h : Host) (inputs : Grader.Inputs) :
  Grader.getInputs h = Return inputs ->
  raw_input h "test-name" <> "" /\
  raw_input h "command" <> "" /\
  (JS.trim (raw_input h "comparison-method") = "" \/
   known_method (JS.trim (raw_input h "comparison-method")) = true) /\
  inputs =
    Grader.mkInputs
      (JS.trim (raw_input h "test-name"))
      (JS.trim (raw_input h "setup-command"))
      (JS.trim (raw_input h "command"))
      (JS.trim (raw_input h "input"))
      (JS.trim (raw_input h "expected-output"))
      (JS.trim (raw_input h "comparison-method"))
      (JS.mul (if JS.truthy (JS.trim (raw_input h "timeout"))
               then parseFloat h (JS.trim (raw_input h "timeout"))
               else JS.of_Z 10) (JS.of_Z 60000))
      (if JS.gt (configured h "pass-score") JS.zero
       then configured h "pass-score"
       else JS.mul (configured h "max-score") JS.lit_0_8)
      (configured h "max-score").
Proof.
  intros Hi.
  destruct (string_dec (raw_input h "test-name") "") as [En | Hn];
    [rewrite (grader_getInputs_no_name h En) in Hi; discriminate |].
  destruct (string_dec (raw_input h "command") "") as [Ec | Hc];
    [rewrite (grader_getInputs_no_command h Hn Ec) in Hi; discriminate |].
  assert (Hm : JS.trim (raw_input h "comparison-method") = "" \/
               known_method (JS.trim (raw_input h "comparison-method"))
               = true).
  { destruct (string_dec (JS.trim (raw_input h "comparison-method")) "")
      as [Em | Hm]; [left; exact Em |].
    right.
    destruct (known_method (JS.trim (raw_input h "comparison-method")))
      eqn:Hk; [reflexivity |].
    rewrite (grader_getInputs_bad_method h Hn Hc Hm Hk) in Hi.
    discriminate. }
  repeat split; try assumption.
  rewrite grader_getInputs_value in Hi;
    [injection Hi as <-; reflexivity | | |];
    try (apply truthy_true; assumption).
  apply method_check_passes. exact Hm.
Qed.

(** X3: [getInputs] of the version with hierarchy scoring returns
    exactly when the inputs [test-name] and [command] are not empty and
    the trimmed [comparison-method] is empty or one of ['exact'],
    ['contains'] and ['regex']; otherwise it throws, and the first failed
    check, in this order, gives the message. *)
Theorem grader_getInputs_succeeds_iff (h : Host) :
  ((exists inputs, Grader.getInputs h = Return inputs) <->
   raw_input h "test-name" <> "" /\
   raw_input h "command" <> "" /\
   (JS.trim (raw_input h "comparison-method") = "" \/
    known_method (JS.trim (raw_input h "comparison-method")) = true)) /\
  (raw_input h "test-name" = "" ->
   Grader.getInputs h
   = Throw (new_Error "Input required and not supplied: test-name")) /\
  (raw_input h "test-name" <> "" -> raw_input h "command" = "" ->
   Grader.getInputs h
   = Throw (new_Error "Input required and not supplied: command")) /\
  (raw_input h "test-name" <> "" -> raw_input h "command" <> "" ->
   JS.trim (raw_input h "comparison-method") <> "" ->
   known_method (JS.trim (raw_input h "comparison-method")) = false ->
   Grader.getInputs h
   = Throw (invalid_method (JS.trim (raw_input h "comparison-method")))).
Proof.
  split; [| split; [apply grader_getInputs_no_name
                   | split; [apply grader_getInputs_no_command
                            | apply grader_getInputs_bad_method]]].
  split.
  - intros [inputs Hi].
    destruct (grader_getInputs_returned h inputs Hi) as (Hn & Hc & Hm & _).
    repeat split; assumption.
  - intros (Hn & Hc & Hm). apply truthy_true in Hn, Hc.
    eexists. apply grader_getInputs_value; try assumption.
    apply method_check_passes. exact Hm.
Qed.

Lemma grader_getInputs_succeeds_iff_witness :
  Grader.getInputs unnamed_host
  = Throw (new_Error "Input required and not supplied: test-name").
Proof.
  destruct (grader_getInputs_succeeds_iff unnamed_host) as (_ & H & _).
  apply H. reflexivity.
Defined.

(** X4: the inputs that [getInputs] of the version with hierarchy
    scoring returns are the trimmed values of the action inputs: the
    second [trim] of [input] changes nothing, and trimming a returned
    string again changes nothing. *)
Theorem grader_inputs_are_trimmed (h : Host) (inputs : Grader.Inputs) :
  Grader.getInputs h = Return inputs ->
  Grader.testName inputs = JS.trim (raw_input h "test-name") /\
  Grader.setupCommand inputs = JS.trim (raw_input h "setup-command") /\
  Grader.command inputs = JS.trim (raw_input h "command") /\
  Grader.input inputs = JS.trim (raw_input h "input") /\
  Grader.expectedOutput inputs = JS.trim (raw_input h "expected-output") /\
  Grader.comparisonMethod inputs
    = JS.trim (raw_input h "comparison-method") /\
  JS.trim (Grader.input inputs) = Grader.input inputs /\
  JS.trim (Grader.command inputs) = Grader.command inputs.
Proof.
  intros Hi.
  destruct (grader_getInputs_returned h inputs Hi) as (_ & _ & _ & ->).
  simpl. rewrite !trim_idempotent. repeat split.
Qed.

Lemma grader_inputs_are_trimmed_witness :
  Grader.input
    (Grader.mkInputs "unit" "" "./run.sh" "1 2" "" "exact" (JS.of_Z 600000)
       JS.zero JS.zero) = JS.trim (raw_input padded_host "input").
Proof.
  apply (grader_inputs_are_trimmed padded_host
           (Grader.mkInputs "unit" "" "./run.sh" "1 2" "" "exact"
              (JS.of_Z 600000) JS.zero JS.zero)).
  vm_compute. reflexivity.
Defined.

(** X5: the defaults of the version with hierarchy scoring. An unset
    [timeout] gives 600000 milliseconds; an unset [max-score] gives the
    maximal score 0; a [pass-score] that is unset, not a number or not
    positive gives the pass score [maxScore * 0.8], which is 0 when the
    [max-score] is unset too. *)
Theorem grader_input_defaults (h : Host) (inputs : Grader.Inputs) :
  Grader.getInputs h = Return inputs ->
  (raw_input h "timeout" = "" -> Grader.timeout inputs = JS.of_Z 600000) /\
  (raw_input h "max-score" = "" -> Grader.maxScore inputs = JS.zero) /\
  (JS.gt (configured h "pass-score") JS.zero = false ->
   Grader.passScore inputs = JS.mul (Grader.maxScore inputs) JS.lit_0_8) /\
  (raw_input h "pass-score" = "" ->
   Grader.passScore inputs = JS.mul (Grader.maxScore inputs) JS.lit_0_8) /\
  (raw_input h "pass-score" = "" -> raw_input h "max-score" = "" ->
   Grader.passScore inputs = JS.zero).
Proof.
  intros Hi.
  destruct (grader_getInputs_scores h inputs Hi) as [Hmax Hpass].
  assert (Hunset : raw_input h "pass-score" = "" ->
                   Grader.passScore inputs
                   = JS.mul (Grader.maxScore inputs) JS.lit_0_8).
  { intros E. rewrite Hpass, Hmax, (configured_unset h _ E). reflexivity. }
  split; [| split; [| split; [| split]]].
  - intros E.
    destruct (grader_getInputs_returned h inputs Hi) as (_ & _ & _ & ->).
    simpl. rewrite E. reflexivity.
  - intros E. rewrite Hmax. apply configured_unset. exact E.
  - intros E. rewrite Hpass, E, Hmax. reflexivity.
  - exact Hunset.
  - intros Ep Em. rewrite (Hunset Ep), Hmax, (configured_unset h _ Em).
    reflexivity.
Qed.

Lemma grader_input_defaults_witness :
  Grader.timeout
    (Grader.mkInputs "unit" "" "gradle test" "" "" "" (JS.of_Z 600000)
       JS.zero JS.zero) = JS.of_Z 600000.
Proof.
  destruct (grader_input_defaults lazy_host
              (Grader.mkInputs "unit" "" "gradle test" "" "" ""
                 (JS.of_Z 600000) JS.zero JS.zero))
    as (H & _); [vm_compute; reflexivity |].
  apply H. reflexivity.
Defined.

(** A blank name does not pass the checks of [src/main.js]. *)
Lemma main_js_getInputs_name (h : Host) (inputs : MainJs.Inputs) :
  MainJs.getInputs h = Return inputs ->
  JS.trim (raw_input h "test-name") <> "".
Proof.
  unfold MainJs.getInputs, Grader.timeout_input, Grader.int_input.
  rewrite !getInput_required, !getInput_optional.
  destruct (JS.truthy (raw_input h "test-name")); [| discriminate].
  destruct (JS.truthy (raw_input h "command")); [| discriminate].
  destruct (JS.truthy (raw_input h "expected-output")); [| discriminate].
  destruct (JS.truthy (raw_input h "comparison-method")); [| discriminate].
  simpl bind.
  destruct (known_method _); [| discriminate]. simpl negb. cbv iota.
  destruct (JS.truthy (JS.trim (raw_input h "test-name"))) eqn:Hn;
    [| discriminate].
  intros _. apply truthy_true. exact Hn.
Qed.

(** X6: the inputs that [getInputs] of [src/main.js] returns have a
    name, a command and an expected output that are not empty after
    trimming, and one of the three comparison methods; a blank required
    input passes the check of [core.getInput] and is refused by the
    check of [getInputs] itself. *)
Theorem main_js_inputs_are_validated (h : Host) (inputs : MainJs.Inputs) :
  MainJs.getInputs h = Return inputs ->
  MainJs.testName inputs <> "" /\
  MainJs.command inputs <> "" /\
  MainJs.expectedOutput inputs <> "" /\
  known_method (MainJs.comparisonMethod inputs) = true /\
  MainJs.testName inputs = JS.trim (raw_input h "test-name") /\
  MainJs.command inputs = JS.trim (raw_input h "command") /\
  MainJs.expectedOutput inputs = JS.trim (raw_input h "expected-output") /\
  MainJs.comparisonMethod inputs
    = JS.trim (raw_input h "comparison-method").
Proof.
  unfold MainJs.getInputs, Grader.timeout_input, Grader.int_input.
  rewrite !getInput_required, !getInput_optional.
  destruct (JS.truthy (raw_input h "test-name")); [| discriminate].
  destruct (JS.truthy (raw_input h "command")); [| discriminate].
  destruct (JS.truthy (raw_input h "expected-output")); [| discriminate].
  destruct (JS.truthy (raw_input h "comparison-method")); [| discriminate].
  simpl bind.
  destruct (known_method _) eqn:Hk; [| discriminate]. simpl negb. cbv iota.
  destruct (JS.truthy (JS.trim (raw_input h "test-name"))) eqn:Hn;
    [| discriminate].
  destruct (JS.truthy (JS.trim (raw_input h "command"))) eqn:Hc;
    [| discriminate].
  destruct (JS.truthy (JS.trim (raw_input h "expected-output"))) eqn:He;
    [| discriminate].
  destruct (JS.truthy (JS.trim (raw_input h "comparison-method"))) eqn:Hm;
    [| discriminate].
  simpl. intros E; injection E as <-. simpl.
  apply truthy_true in Hn, Hc, He. repeat split; assumption.
Qed.

Lemma main_js_inputs_are_validated_witness :
  MainJs.testName
    (MainJs.mkInputs "io" "" "./a.out" "" "42" "exact" (JS.of_Z 600000)
       (JS.of_Z 5)) <> "".
Proof.
  apply (main_js_inputs_are_validated exact_host
           (MainJs.mkInputs "io" "" "./a.out" "" "42" "exact"
              (JS.of_Z 600000) (JS.of_Z 5))).
  vm_compute. reflexivity.
Defined.

(** X7: a [test-name] of white space only is refused by [src/main.js]
    with its own message, and is accepted by the version with hierarchy
    scoring, whose test then has the empty name. *)
Theorem blank_test_name_in_both_versions (h : Host) :
  raw_input h "test-name" <> "" ->
  JS.trim (raw_input h "test-name") = "" ->
  (forall inputs, MainJs.getInputs h <> Return inputs) /\
  (forall inputs,
      Grader.getInputs h = Return inputs -> Grader.testName inputs = "").
Proof.
  intros Hraw Hblank. split.
  - intros inputs Hi.
    apply (main_js_getInputs_name h inputs Hi). exact Hblank.
  - intros inputs Hi.
    destruct (grader_getInputs_returned h inputs Hi) as (_ & _ & _ & ->).
    simpl. exact Hblank.
Qed.

Lemma blank_test_name_in_both_versions_witness :
  MainJs.getInputs blank_name_host
    = Throw (new_Error "Required inputs are missing or invalid") /\
  Grader.getInputs blank_name_host
    = Return (Grader.mkInputs "" "" "./a.out" "" "42" "exact"
                (JS.of_Z 600000) JS.zero JS.zero).
Proof.
  destruct (blank_test_name_in_both_versions blank_name_host) as [Hm Hg];
    [discriminate | reflexivity |].
  split; vm_compute; reflexivity.
Defined.

(** ** Objects as dictionaries *)

Lemma get_set_same (node : object) (key : string) (v : Value) :
  get (set node key v) key = Some v.
Proof.
  induction node as [| [k w] rest IH]; simpl.
  - rewrite String.eqb_refl. reflexivity.
  - destruct (String.eqb k key) eqn:Hk; simpl; rewrite Hk;
      [reflexivity | exact IH].
Qed.

Lemma get_set_other (node : object) (key other : string) (v : Value) :
  other <> key -> get (set node key v) other = get node other.
Proof.
  intros Hne. induction node as [| [k w] rest IH]; simpl.
  - apply String.eqb_neq in Hne. rewrite String.eqb_sym, Hne. reflexivity.
  - destruct (String.eqb k key) eqn:Hk; simpl.
    + apply String.eqb_eq in Hk. subst k.
      apply String.eqb_neq in Hne. rewrite String.eqb_sym, Hne. reflexivity.
    + destruct (String.eqb k other); [reflexivity | exact IH].
Qed.

Lemma set_get_unchanged (node : object) (key : string) (v : Value) :
  get node key = Some v -> set node key v = node.
Proof.
  induction node as [| [k w] rest IH]; simpl; [discriminate |].
  destruct (String.eqb k key); intros E.
  - injection E as ->. reflexivity.
  - rewrite (IH E). reflexivity.
Qed.

Lemma set_not_empty (node : object) (key : string) (v : Value) :
  set node key v <> [].
Proof.
  destruct node as [| [k w] rest]; simpl; [discriminate |].
  destruct (String.eqb k key); discriminate.
Qed.

(** ** Walking a path *)

Lemma crosses_passed_leaf_empty (path : list string) :
  crosses_passed_leaf path [] = false.
Proof. destruct path as [| k [| k2 r]]; reflexivity. Qed.

Lemma lookup_path_not_crossing (path : list string) (node : object)
  (v : Value) :
  lookup_path path node = Some v -> crosses_passed_leaf path node = false.
Proof.
  revert node. induction path as [| k rest IH]; intros node; [reflexivity |].
  simpl. destruct rest as [| k2 r]; [reflexivity |].
  destruct (get node k) as [[[|] | o] |]; try discriminate. apply IH.
Qed.

(** A path with no branch segment on a passed leaf is walked without an
    error, and the tree then holds the leaf at that path. *)
Lemma walk_stores_leaf_core (path : list string) (isPassed : bool)
  (node : object) :
  path <> [] ->
  crosses_passed_leaf path node = false ->
  exists node',
    walk path isPassed node = Return node' /\
    lookup_path path node' = Some (VBool isPassed).
Proof.
  revert node. induction path as [| k rest IH]; intros node Hne Hcross;
    [contradiction |].
  destruct rest as [| k2 r].
  - simpl. eexists. split; [reflexivity |]. apply get_set_same.
  - assert (Hrest : k2 :: r <> []) by discriminate.
    simpl in Hcross. simpl walk.
    destruct (get node k) as [[[|] | o] |] eqn:Hg.
    + discriminate.
    + destruct (IH [] Hrest (crosses_passed_leaf_empty _))
        as (o' & Hw & Hl).
      simpl in Hw. rewrite Hw. simpl bind. eexists. split; [reflexivity |].
      simpl lookup_path. rewrite get_set_same. exact Hl.
    + destruct (IH o Hrest Hcross) as (o' & Hw & Hl).
      simpl in Hw. rewrite Hw. simpl bind. eexists. split; [reflexivity |].
      simpl lookup_path. rewrite get_set_same. exact Hl.
    + destruct (IH [] Hrest (crosses_passed_leaf_empty _))
        as (o' & Hw & Hl).
      simpl in Hw. rewrite Hw. simpl bind. eexists. split; [reflexivity |].
      simpl lookup_path. rewrite get_set_same. exact Hl.
Qed.

(** A path that already holds the leaf is left as it is. *)
Lemma walk_same_leaf (path : list string) (isPassed : bool) (node : object) :
  lookup_path path node = Some (VBool isPassed) ->
  walk path isPassed node = Return node.
Proof.
  revert node. induction path as [| k rest IH]; intros node; [discriminate |].
  destruct rest as [| k2 r].
  - simpl. intros Hg. rewrite (set_get_unchanged _ _ _ Hg). reflexivity.
  - simpl lookup_path. simpl walk.
    destruct (get node k) as [[[|] | o] |] eqn:Hg; try discriminate.
    intros Hl. pose proof (IH o Hl) as Hw. simpl in Hw. rewrite Hw.
    simpl bind. rewrite (set_get_unchanged _ _ _ Hg). reflexivity.
Qed.

(** X8: on the tree of a report whose paths have plain keys, a path of
    plain keys with no branch segment on a passed leaf is walked without
    an error, and afterwards the tree holds the new leaf at that path:
    the last occurrence of a path wins, and walking the same leaf again
    changes nothing. *)
Theorem walk_stores_leaf (testResults : string) (path : list string)
  (first second : bool) (node : object) :
  plain_report testResults = true ->
  parseGradleTestResults testResults = Return node ->
  path <> [] ->
  plain_path path = true ->
  crosses_passed_leaf path node = false ->
  exists node1 node2,
    walk path first node = Return node1 /\
    lookup_path path node1 = Some (VBool first) /\
    walk path second node1 = Return node2 /\
    lookup_path path node2 = Some (VBool second) /\
    walk path second node2 = Return node2.
Proof.
  intros _ _ Hne _ Hcross.
  destruct (walk_stores_leaf_core path first node Hne Hcross)
    as (node1 & Hw1 & Hl1).
  destruct (walk_stores_leaf_core path second node1 Hne
              (lookup_path_not_crossing _ _ _ Hl1))
    as (node2 & Hw2 & Hl2).
  exists node1, node2. repeat split; try assumption.
  apply walk_same_leaf. exact Hl2.
Qed.

Lemma walk_stores_leaf_witness :
  exists node1 node2,
    walk ["Suite"; "Case"; "check"] true [("Suite", VBool false)]
      = Return node1 /\
    lookup_path ["Suite"; "Case"; "check"] node1 = Some (VBool true) /\
    walk ["Suite"; "Case"; "check"] false node1 = Return node2 /\
    lookup_path ["Suite"; "Case"; "check"] node2 = Some (VBool false) /\
    walk ["Suite"; "Case"; "check"] false node2 = Return node2.
Proof.
  apply (walk_stores_leaf "Suite FAILED" ["Suite"; "Case"; "check"]
           true false [("Suite", VBool false)]);
    [reflexivity | reflexivity | discriminate | reflexivity | reflexivity].
Defined.

(** X9: on the tree of a report whose paths have plain keys, walking a
    path of plain keys throws only when a branch segment of the path is a
    passed leaf; and when one is, the tree is left as it is (the new leaf
    is lost) or a [TypeError] on [undefined] is thrown. *)
Theorem walk_throws_only_across_passed_leaf (testResults : string)
  (path : list string) (isPassed : bool) (node : object) :
  plain_report testResults = true ->
  parseGradleTestResults testResults = Return node ->
  plain_path path = true ->
  (forall e, walk path isPassed node = Throw e ->
             crosses_passed_leaf path node = true) /\
  (crosses_passed_leaf path node = true ->
   walk path isPassed node = Return node \/
   exists level,
     walk path isPassed node = Throw (cannot_set level) \/
     walk path isPassed node = Throw (cannot_read level)).
Proof.
  intros _ _ _. split.
  - intros e Hw.
    destruct (crosses_passed_leaf path node) eqn:Hcross; [reflexivity |].
    destruct path as [| k rest]; [discriminate |].
    destruct (walk_stores_leaf_core (k :: rest) isPassed node)
      as (node' & Hw' & _); [discriminate | exact Hcross |].
    rewrite Hw' in Hw. discriminate.
  - revert node. induction path as [| k rest IH]; intros node;
      [discriminate |].
    destruct rest as [| k2 r]; [discriminate |].
    simpl crosses_passed_leaf. simpl walk.
    destruct (get node k) as [[[|] | o] |] eqn:Hg; try discriminate.
    + intros _. destruct r as [| k3 [| k4 r']]; simpl.
      * left. reflexivity.
      * right. exists k3. left. reflexivity.
      * right. exists k3. right. reflexivity.
    + intros Hcross. destruct (IH o Hcross) as [Hw | (level & [Hw | Hw])];
        simpl in Hw; rewrite Hw; simpl bind.
      * left. rewrite (set_get_unchanged _ _ _ Hg). reflexivity.
      * right. exists level. left. reflexivity.
      * right. exists level. right. reflexivity.
Qed.

Lemma walk_throws_only_across_passed_leaf_witness :
  walk ["A"; "B"] false [("A", VBool true)] = Return [("A", VBool true)] \/
  exists level,
    walk ["A"; "B"] false [("A", VBool true)] = Throw (cannot_set level) \/
    walk ["A"; "B"] false [("A", VBool true)] = Throw (cannot_read level).
Proof.
  apply (walk_throws_only_across_passed_leaf "A PASSED" ["A"; "B"] false
           [("A", VBool true)]); reflexivity.
Defined.

(** X10: on the tree of a report whose paths have plain keys, one more
    report line whose path has plain keys changes the tree under its
    first segment only: every other key of the root keeps its value. *)
Theorem walk_keeps_other_keys (testResults : string) (path : list string)
  (isPassed : bool) (node node' : object) (other : string) :
  plain_report testResults = true ->
  parseGradleTestResults testResults = Return node ->
  plain_path path = true ->
  walk path isPassed node = Return node' ->
  first_segment path <> Some other ->
  get node' other = get node other.
Proof.
  intros _ _ _. destruct path as [| k rest]; simpl.
  - intros E _. injection E as <-. reflexivity.
  - intros Hw Hne. assert (Hk : other <> k) by congruence.
    destruct rest as [| k2 r].
    + injection Hw as <-. apply get_set_other. exact Hk.
    + destruct (get node k) as [[[|] | o] |];
        match type of Hw with
        | bind ?m _ = _ => destruct m; simpl in Hw; [| discriminate]
        end;
        injection Hw as <-; try reflexivity; apply get_set_other; exact Hk.
Qed.

Lemma walk_keeps_other_keys_witness :
  get [("A", VBool true); ("B", VObject [("C", VBool false)])] "A"
  = get [("A", VBool true)] "A".
Proof.
  apply (walk_keeps_other_keys "A PASSED" ["B"; "C"] false
           [("A", VBool true)]);
    [reflexivity | reflexivity | reflexivity | reflexivity | discriminate].
Defined.

(** ** The tree of a report *)

Lemma line_match_has_match (l : string) :
  line_match l <> None <-> has_match l.
Proof.
  split.
  - destruct (line_match l) as [[g1 g2] |] eqn:Hm; [| contradiction].
    intros _.
    destruct (line_match_sound _ _ _ Hm) as (before & t & -> & Hh & _).
    destruct (match_here_sound _ _ _ Hh) as (spaces & r & -> & Hparts).
    exists before, g1, spaces, g2, r. split; [reflexivity | exact Hparts].
  - intros (before & prefix & spaces & token & rest & -> & Hparts).
    apply line_match_complete.
    destruct (match_here_longest prefix spaces token rest Hparts)
      as (g1 & g2 & Hm & _).
    rewrite Hm. discriminate.
Qed.

Lemma split_from_not_empty (s : string) (skip : nat) :
  split_from s skip <> [].
Proof.
  revert skip. induction s as [| c t IH]; intros skip; cbn [split_from];
    [discriminate |].
  destruct skip as [| k]; [| apply IH].
  destruct (separator_length (String c t)); [discriminate |].
  destruct (split_from t 0); discriminate.
Qed.

Lemma walk_not_empty (path : list string) (isPassed : bool)
  (node node' : object) :
  path <> [] -> walk path isPassed node = Return node' -> node' <> [].
Proof.
  destruct path as [| k rest]; [contradiction |]. intros _. simpl.
  destruct rest as [| k2 r].
  - intros E; injection E as <-. apply set_not_empty.
  - destruct (get node k) as [[[|] | o] |] eqn:Hg;
      match goal with
      | |- bind ?m _ = _ -> _ => destruct m; simpl; [| discriminate]
      end;
      intros E; injection E as <-; try apply set_not_empty.
    destruct node; [discriminate | discriminate].
Qed.

Lemma parse_line_not_empty (tests tests' : object) (line : string) :
  parse_line tests line = Return tests' ->
  (line_match (JS.trim line) = None /\ tests' = tests) \/
  (line_match (JS.trim line) <> None /\ tests' <> []).
Proof.
  unfold parse_line.
  destruct (line_match (JS.trim line)) as [[g1 g2] |].
  - intros Hw. right. split; [discriminate |].
    apply (walk_not_empty _ _ _ _ (split_from_not_empty g1 0) Hw).
  - intros E; injection E as <-. left. split; reflexivity.
Qed.

Lemma parse_lines_stays_not_empty (lines : list string)
  (tests tree : object) :
  parse_lines lines tests = Return tree -> tests <> [] -> tree <> [].
Proof.
  revert tests. induction lines as [| line rest IH]; intros tests; simpl.
  - intros E; injection E as <-. exact (fun H => H).
  - destruct (parse_line tests line) as [tests' |] eqn:Hl; simpl;
      [| discriminate].
    intros Hp Hne. apply (IH tests' Hp).
    destruct (parse_line_not_empty _ _ _ Hl) as [[_ ->] | [_ H]]; assumption.
Qed.

Lemma parse_lines_empty_iff (lines : list string) :
  parse_lines lines [] = Return [] <->
  forall line, In line lines -> line_match (JS.trim line) = None.
Proof.
  induction lines as [| line rest IH]; simpl.
  - split; [intros _ line [] | reflexivity].
  - split.
    + destruct (parse_line [] line) as [tests' |] eqn:Hl; simpl;
        [| discriminate].
      intros Hp.
      destruct (parse_line_not_empty _ _ _ Hl) as [[Hn ->] | [_ Hne]].
      * intros l [<- | Hin]; [exact Hn | apply IH; assumption].
      * exfalso. apply (parse_lines_stays_not_empty _ _ _ Hp Hne).
        reflexivity.
    + intros Hall. unfold parse_line at 1.
      rewrite (Hall line (or_introl eq_refl)). simpl. apply IH.
      intros l Hin. apply Hall. right. exact Hin.
Qed.

(** X11: for a report whose paths have plain keys, the parsed tree is
    empty exactly when no trimmed line of the text contains a match of
    the pattern; then no leaf is counted. *)
Theorem parse_empty_iff_no_line_matches (testResults : string) :
  plain_report testResults = true ->
  (parseGradleTestResults testResults = Return [] <->
   forall line,
     In line (JS.split_newline testResults) -> ~ has_match (JS.trim line)) /\
  Grader.countPassedTests [] (0, 0) = (0, 0).
Proof.
  intros _. split; [| reflexivity].
  unfold parseGradleTestResults. rewrite parse_lines_empty_iff.
  split; intros H line Hin.
  - rewrite <- line_match_has_match. intros Hne. apply Hne. apply H, Hin.
  - destruct (line_match (JS.trim line)) eqn:Hm; [| reflexivity].
    exfalso. apply (H line Hin). apply line_match_has_match.
    rewrite Hm. discriminate.
Qed.

Lemma parse_empty_iff_no_line_matches_witness :
  parseGradleTestResults ("hello" ++ nl ++ "world") = Return [] <->
  forall line,
    In line (JS.split_newline ("hello" ++ nl ++ "world")) ->
    ~ has_match (JS.trim line).
Proof.
  apply (parse_empty_iff_no_line_matches ("hello" ++ nl ++ "world")).
  reflexivity.
Defined.

(** *** The invariant of the tree *)

Lemma well_formed_object (inner : bool) (entries : object) :
  well_formed inner (VObject entries) <->
  (inner = true -> entries <> []) /\
  NoDup (keys entries) /\
  Forall (fun kv => well_formed true (snd kv)) entries.
Proof.
  assert (Hall : forall node : object,
             (fix all_well_formed (node : object) : Prop :=
                match node with
                | [] => True
                | (_, v) :: rest => well_formed true v /\ all_well_formed rest
                end) node
             <-> Forall (fun kv => well_formed true (snd kv)) node).
  { induction node as [| [k v] rest IH].
    - split; [constructor | exact (fun _ => I)].
    - split.
      + intros [Hv Hr]. constructor; [exact Hv | apply IH; exact Hr].
      + intros H. inversion H as [| ? ? Hv Hr]; subst.
        split; [exact Hv | apply IH; exact Hr]. }
  simpl. unfold keys. rewrite Hall. reflexivity.
Qed.

Lemma in_keys_set (node : object) (key other : string) (v : Value) :
  In other (keys (set node key v)) -> other = key \/ In other (keys node).
Proof.
  induction node as [| [k w] rest IH]; simpl.
  - intros [<- | []]. left. reflexivity.
  - destruct (String.eqb k key); simpl.
    + intros H. right. exact H.
    + intros [<- | H]; [right; left; reflexivity |].
      destruct (IH H) as [-> | Hin]; [left; reflexivity | right; right; exact Hin].
Qed.

Lemma NoDup_keys_set (node : object) (key : string) (v : Value) :
  NoDup (keys node) -> NoDup (keys (set node key v)).
Proof.
  induction node as [| [k w] rest IH]; simpl.
  - intros _. constructor; [exact (fun H => H) | constructor].
  - intros H. inversion H as [| ? ? Hnotin Hrest]; subst.
    destruct (String.eqb k key) eqn:Hk; simpl.
    + constructor; assumption.
    + constructor; [| apply IH; exact Hrest].
      intros Hin. destruct (in_keys_set _ _ _ _ Hin) as [-> | Hin'].
      * rewrite String.eqb_refl in Hk. discriminate.
      * contradiction.
Qed.

Lemma Forall_set (P : string * Value -> Prop) (node : object)
  (key : string) (v : Value) :
  (forall k, P (k, v)) -> Forall P node -> Forall P (set node key v).
Proof.
  intros Hv. induction node as [| [k w] rest IH]; simpl; intros H.
  - constructor; [apply Hv | constructor].
  - inversion H as [| ? ? Hw Hrest]; subst.
    destruct (String.eqb k key); constructor; auto.
Qed.

Lemma Forall_get (P : Value -> Prop) (node : object) (key : string)
  (v : Value) :
  Forall (fun kv => P (snd kv)) node -> get node key = Some v -> P v.
Proof.
  induction node as [| [k w] rest IH]; simpl; [discriminate |].
  intros H. inversion H as [| ? ? Hw Hrest]; subst.
  destruct (String.eqb k key); [| exact (IH Hrest)].
  intros E; injection E as <-. exact Hw.
Qed.

Lemma well_formed_set (inner : bool) (node : object) (key : string)
  (v : Value) :
  well_formed inner (VObject node) -> well_formed true v ->
  well_formed inner (VObject (set node key v)).
Proof.
  rewrite !well_formed_object. intros (_ & Hnd & Hall) Hv.
  split; [intros _; apply set_not_empty |].
  split; [apply NoDup_keys_set; exact Hnd |].
  apply Forall_set; [intros k; exact Hv | exact Hall].
Qed.

Lemma well_formed_inner (node : object) :
  well_formed false (VObject node) -> node <> [] ->
  well_formed true (VObject node).
Proof.
  rewrite !well_formed_object. intros (_ & Hnd & Hall) Hne.
  split; [intros _; exact Hne | split; assumption].
Qed.

Lemma well_formed_empty : well_formed false (VObject []).
Proof.
  apply well_formed_object. split; [discriminate |].
  split; constructor.
Qed.

Lemma walk_well_formed (path : list string) (isPassed : bool)
  (inner : bool) (node node' : object) :
  well_formed inner (VObject node) ->
  walk path isPassed node = Return node' ->
  well_formed inner (VObject node').
Proof.
  revert inner node node'.
  induction path as [| k rest IH]; intros inner node node' Hwf; simpl.
  - intros E; injection E as <-. exact Hwf.
  - destruct rest as [| k2 r].
    + intros E; injection E as <-. apply well_formed_set; [exact Hwf |].
      exact I.
    + assert (Hrest : k2 :: r <> []) by discriminate.
      destruct (get node k) as [[[|] | o] |] eqn:Hg.
      * destruct (walk_true (k2 :: r)); simpl; [| discriminate].
        intros E; injection E as <-. exact Hwf.
      * destruct (walk (k2 :: r) isPassed []) as [o' |] eqn:Hw; simpl;
          [| discriminate].
        intros E; injection E as <-. apply well_formed_set; [exact Hwf |].
        apply well_formed_inner; [| exact (walk_not_empty _ _ _ _ Hrest Hw)].
        exact (IH false [] o' well_formed_empty Hw).
      * destruct (walk (k2 :: r) isPassed o) as [o' |] eqn:Hw; simpl;
          [| discriminate].
        intros E; injection E as <-. apply well_formed_set; [exact Hwf |].
        apply (IH true o o'); [| exact Hw].
        apply well_formed_object in Hwf. destruct Hwf as (_ & _ & Hall).
        exact (Forall_get (well_formed true) _ _ _ Hall Hg).
      * destruct (walk (k2 :: r) isPassed []) as [o' |] eqn:Hw; simpl;
          [| discriminate].
        intros E; injection E as <-. apply well_formed_set; [exact Hwf |].
        apply well_formed_inner; [| exact (walk_not_empty _ _ _ _ Hrest Hw)].
        exact (IH false [] o' well_formed_empty Hw).
Qed.

Lemma parse_lines_well_formed (lines : list string) (tests tree : object) :
  well_formed_tree tests ->
  parse_lines lines tests = Return tree ->
  well_formed_tree tree.
Proof.
  revert tests. induction lines as [| line rest IH]; intros tests Hwf; simpl.
  - intros E; injection E as <-. exact Hwf.
  - destruct (parse_line tests line) as [tests' |] eqn:Hl; simpl;
      [| discriminate].
    apply IH. unfold parse_line in Hl.
    destruct (line_match (JS.trim line)) as [[g1 g2] |].
    + exact (walk_well_formed _ _ _ _ _ Hwf Hl).
    + injection Hl as <-. exact Hwf.
Qed.

(** X12: in every tree that the parser returns for a report whose paths
    have plain keys, each object below the root has at least one key, and
    no object has a key twice. *)
Theorem parsed_tree_is_well_formed (testResults : string) (tree : object) :
  plain_report testResults = true ->
  parseGradleTestResults testResults = Return tree ->
  well_formed_tree tree.
Proof.
  intros _. apply parse_lines_well_formed. exact well_formed_empty.
Qed.

Lemma parsed_tree_is_well_formed_witness :
  well_formed_tree [("Suite", VObject [("A", VBool true); ("B", VBool false)])].
Proof.
  apply (parsed_tree_is_well_formed
           ("Suite > A PASSED" ++ nl ++ "Suite > B FAILED" ++ nl));
    vm_compute; reflexivity.
Defined.

(** ** Counting the leaves *)

Lemma Value_nested_ind (P : Value -> Prop) :
  (forall b, P (VBool b)) ->
  (forall entries,
      Forall (fun kv => P (snd kv)) entries -> P (VObject entries)) ->
  forall v, P v.
Proof.
  intros Hb Ho. fix IH 1. intros [b | entries]; [apply Hb |].
  apply Ho. induction entries as [| [k v] rest IHrest]; constructor.
  - simpl. apply IH.
  - exact IHrest.
Qed.

Lemma count_value_object (entries : object) (counters : nat * nat) :
  Grader.count_value (VObject entries) counters =
  fold_left (fun acc kv => Grader.count_value (snd kv) acc) entries counters.
Proof.
  simpl. revert counters.
  induction entries as [| [k v] rest IH]; intros counters; [reflexivity |].
  simpl. apply IH.
Qed.

(** The counters are added to: the result on any pair is the result on
    the fresh pair, shifted. *)
Lemma count_value_shift (v : Value) (c p : nat) :
  Grader.count_value v (c, p) =
  (c + fst (Grader.count_value v (0, 0)),
   p + snd (Grader.count_value v (0, 0))).
Proof.
  revert c p. induction v as [b | entries IH] using Value_nested_ind;
    intros c p.
  - simpl. f_equal; lia.
  - rewrite !count_value_object.
    assert (H : forall a b c p,
               fold_left (fun acc kv => Grader.count_value (snd kv) acc)
                 entries (a + c, b + p)
               = (a + fst (fold_left
                             (fun acc kv => Grader.count_value (snd kv) acc)
                             entries (c, p)),
                  b + snd (fold_left
                             (fun acc kv => Grader.count_value (snd kv) acc)
                             entries (c, p)))).
    { induction IH as [| [k v] rest Hv _ IHrest]; intros a b c0 p0;
        [reflexivity |].
      simpl in *. rewrite (Hv (a + c0) (b + p0)), (Hv c0 p0).
      rewrite <- !Nat.add_assoc. apply IHrest. }
    specialize (H c p 0 0). rewrite !Nat.add_0_r in H. exact H.
Qed.

Lemma count_value_cons (k : string) (v : Value) (rest : object) :
  Grader.count_value (VObject ((k, v) :: rest)) (0, 0) =
  (fst (Grader.count_value v (0, 0))
   + fst (Grader.count_value (VObject rest) (0, 0)),
   snd (Grader.count_value v (0, 0))
   + snd (Grader.count_value (VObject rest) (0, 0))).
Proof.
  rewrite (count_value_object ((k, v) :: rest)). simpl.
  rewrite <- count_value_object.
  destruct (Grader.count_value v (0, 0)) as [c p].
  rewrite count_value_shift. reflexivity.
Qed.

Lemma passed_le_count (v : Value) :
  snd (Grader.count_value v (0, 0)) <= fst (Grader.count_value v (0, 0)).
Proof.
  induction v as [b | entries IH] using Value_nested_ind.
  - destruct b; simpl; lia.
  - induction IH as [| [k v] rest Hv _ IHrest]; [simpl; lia |].
    rewrite count_value_cons. simpl in *. lia.
Qed.

(** X13: the traversal of the version with hierarchy scoring never
    counts more passed leaves than leaves, it adds to the counters it is
    given, and the counts of an object are the sums of the counts of its
    values. *)
Theorem countPassedTests_counts (tree : object) (c p : nat) :
  taskPassed_of tree <= taskCount_of tree /\
  Grader.countPassedTests tree (c, p)
    = (c + taskCount_of tree, p + taskPassed_of tree) /\
  (forall key b rest,
      tree = (key, VBool b) :: rest ->
      taskCount_of tree = 1 + taskCount_of rest /\
      taskPassed_of tree = (if b then 1 else 0) + taskPassed_of rest) /\
  (forall key entries rest,
      tree = (key, VObject entries) :: rest ->
      taskCount_of tree = taskCount_of entries + taskCount_of rest /\
      taskPassed_of tree = taskPassed_of entries + taskPassed_of rest).
Proof.
  unfold taskPassed_of, taskCount_of, Grader.countPassedTests.
  split; [apply passed_le_count |].
  split; [apply count_value_shift |].
  split.
  - intros key b rest ->. rewrite count_value_cons. simpl. split; reflexivity.
  - intros key entries rest ->. rewrite count_value_cons. simpl.
    split; reflexivity.
Qed.

Lemma countPassedTests_counts_witness :
  taskCount_of [("Suite", VObject [("A", VBool true); ("B", VBool false)])]
  = taskCount_of [("A", VBool true); ("B", VBool false)] + taskCount_of [].
Proof.
  destruct (countPassedTests_counts
              [("Suite", VObject [("A", VBool true); ("B", VBool false)])]
              0 0) as (_ & _ & _ & H).
  apply (H "Suite" [("A", VBool true); ("B", VBool false)] []).
  reflexivity.
Defined.

Lemma well_formed_has_leaf (v : Value) :
  well_formed true v -> 0 < fst (Grader.count_value v (0, 0)).
Proof.
  induction v as [b | entries IH] using Value_nested_ind.
  - intros _. simpl. lia.
  - rewrite well_formed_object. intros (Hne & _ & Hall).
    destruct entries as [| [k v] rest]; [exfalso; apply Hne; reflexivity |].
    rewrite count_value_cons. simpl.
    inversion IH as [| ? ? Hv _]; subst.
    inversion Hall as [| ? ? Hwf _]; subst.
    specialize (Hv Hwf). simpl in Hv. lia.
Qed.

Lemma well_formed_tree_has_leaf (tree : object) :
  well_formed_tree tree -> tree <> [] -> 0 < taskCount_of tree.
Proof.
  intros Hwf Hne. apply well_formed_has_leaf.
  apply well_formed_inner; assumption.
Qed.

(** X14: when the parser returns for an output whose paths have plain
    keys, the count of leaves is 0 exactly when no trimmed line of the
    output contains a match of the pattern: for such an output the
    fallback on the comparison is the branch of an output without any
    report line. *)
Theorem no_leaves_iff_no_line_matches (testResults : string)
  (tree : object) :
  plain_report testResults = true ->
  parseGradleTestResults testResults = Return tree ->
  (taskCount_of tree = 0 <->
   forall line,
     In line (JS.split_newline testResults) -> ~ has_match (JS.trim line)).
Proof.
  intros _ Hp.
  assert (Hempty : taskCount_of tree = 0 <-> tree = []).
  { split; [| intros ->; reflexivity].
    intros Hc. destruct tree as [| entry rest]; [reflexivity |].
    assert (H : 0 < taskCount_of (entry :: rest)).
    { apply well_formed_tree_has_leaf; [| discriminate].
      exact (parse_lines_well_formed _ _ _ well_formed_empty Hp). }
    lia. }
  rewrite Hempty. unfold parseGradleTestResults in Hp. split.
  - intros ->. pose proof (proj1 (parse_lines_empty_iff _) Hp) as Hnone.
    intros line Hin. rewrite <- line_match_has_match.
    intros Hne. apply Hne, Hnone, Hin.
  - intros Hall.
    assert (Hnone : forall line, In line (JS.split_newline testResults) ->
                                 line_match (JS.trim line) = None).
    { intros line Hin.
      destruct (line_match (JS.trim line)) eqn:Hm; [| reflexivity].
      exfalso. apply (Hall line Hin). apply line_match_has_match.
      rewrite Hm. discriminate. }
    apply (proj2 (parse_lines_empty_iff _)) in Hnone. rewrite Hnone in Hp.
    injection Hp as <-. reflexivity.
Qed.

Lemma no_leaves_iff_no_line_matches_witness :
  taskCount_of [] = 0 <->
  forall line,
    In line (JS.split_newline ("hello" ++ nl ++ "world")) ->
    ~ has_match (JS.trim line).
Proof.
  apply (no_leaves_iff_no_line_matches ("hello" ++ nl ++ "world") []);
    vm_compute; reflexivity.
Defined.

(** *** At most one leaf for each line *)

Lemma count_set (node : object) (key : string) (v : Value) :
  taskCount_of (set node key v)
  + match get node key with
    | Some old => fst (Grader.count_value old (0, 0))
    | None => 0
    end
  = taskCount_of node + fst (Grader.count_value v (0, 0)).
Proof.
  unfold taskCount_of, Grader.countPassedTests.
  induction node as [| [k w] rest IH].
  - simpl set. simpl get. rewrite count_value_cons. simpl. lia.
  - simpl set. simpl get. destruct (String.eqb k key).
    + rewrite !count_value_cons. simpl. lia.
    + rewrite !count_value_cons. simpl fst in *. lia.
Qed.

Lemma count_get (node : object) (key : string) (old : Value) :
  get node key = Some old ->
  fst (Grader.count_value old (0, 0)) <= taskCount_of node.
Proof.
  unfold taskCount_of, Grader.countPassedTests.
  induction node as [| [k w] rest IH]; simpl get; [discriminate |].
  rewrite count_value_cons. cbn [fst].
  destruct (String.eqb k key).
  - intros E; injection E as <-. lia.
  - intros E. specialize (IH E). lia.
Qed.

Lemma walk_adds_at_most_one_leaf (path : list string) (isPassed : bool)
  (node node' : object) :
  walk path isPassed node = Return node' ->
  taskCount_of node' <= taskCount_of node + 1.
Proof.
  revert node node'. induction path as [| k rest IH]; intros node node'.
  - simpl. intros E; injection E as <-. lia.
  - simpl. destruct rest as [| k2 r].
    + intros E; injection E as <-.
      pose proof (count_set node k (VBool isPassed)) as H. simpl in H. lia.
    + destruct (get node k) as [[[|] | o] |] eqn:Hg.
      * destruct (walk_true (k2 :: r)); simpl; [| discriminate].
        intros E; injection E as <-. lia.
      * destruct (walk (k2 :: r) isPassed []) as [o' |] eqn:Hw; simpl;
          [| discriminate].
        intros E; injection E as <-.
        pose proof (count_set node k (VObject o')) as H. rewrite Hg in H.
        pose proof (IH [] o' Hw) as Hb.
        change (fst (Grader.count_value (VObject o') (0, 0)))
          with (taskCount_of o') in H.
        change (taskCount_of []) with 0 in Hb. simpl in H. lia.
      * destruct (walk (k2 :: r) isPassed o) as [o' |] eqn:Hw; simpl;
          [| discriminate].
        intros E; injection E as <-.
        pose proof (count_set node k (VObject o')) as H. rewrite Hg in H.
        pose proof (IH o o' Hw) as Hb.
        pose proof (count_get node k _ Hg) as Hle.
        change (fst (Grader.count_value (VObject o') (0, 0)))
          with (taskCount_of o') in H.
        change (fst (Grader.count_value (VObject o) (0, 0)))
          with (taskCount_of o) in *.
        lia.
      * destruct (walk (k2 :: r) isPassed []) as [o' |] eqn:Hw; simpl;
          [| discriminate].
        intros E; injection E as <-.
        pose proof (count_set node k (VObject o')) as H. rewrite Hg in H.
        pose proof (IH [] o' Hw) as Hb.
        change (fst (Grader.count_value (VObject o') (0, 0)))
          with (taskCount_of o') in H.
        change (taskCount_of []) with 0 in Hb. lia.
Qed.

Lemma parse_lines_count (lines : list string) (tests tree : object) :
  parse_lines lines tests = Return tree ->
  taskCount_of tree <= taskCount_of tests + List.length lines.
Proof.
  revert tests. induction lines as [| line rest IH]; intros tests; simpl.
  - intros E; injection E as <-. lia.
  - destruct (parse_line tests line) as [tests' |] eqn:Hl; simpl;
      [| discriminate].
    intros Hp. specialize (IH tests' Hp).
    assert (taskCount_of tests' <= taskCount_of tests + 1); [| lia].
    unfold parse_line in Hl.
    destruct (line_match (JS.trim line)) as [[g1 g2] |].
    + exact (walk_adds_at_most_one_leaf _ _ _ _ Hl).
    + injection Hl as <-. lia.
Qed.

(** X15: one line of an output whose paths have plain keys adds at most
    one leaf: the count of leaves of the parsed tree is at most the
    number of lines of the output, and the count of passed leaves is at
    most the count of leaves. *)
Theorem leaves_at_most_lines (testResults : string) (tree : object) :
  plain_report testResults = true ->
  parseGradleTestResults testResults = Return tree ->
  taskPassed_of tree <= taskCount_of tree /\
  taskCount_of tree <= List.length (JS.split_newline testResults).
Proof.
  intros _ Hp. split; [apply passed_le_count |].
  apply parse_lines_count in Hp. exact Hp.
Qed.

Lemma leaves_at_most_lines_witness :
  taskPassed_of [("S", VObject [("a", VBool true)])]
  <= taskCount_of [("S", VObject [("a", VBool true)])] /\
  taskCount_of [("S", VObject [("a", VBool true)])]
  <= List.length (JS.split_newline ("S > a FAILED" ++ nl ++ "S > a PASSED")).
Proof.
  apply (leaves_at_most_lines ("S > a FAILED" ++ nl ++ "S > a PASSED"));
    vm_compute; reflexivity.
Defined.

(** ** The envelope *)

Lemma grader_grade_message (h : Host) (inputs : Grader.Inputs)
  (output : string) (error : option string) (o : Grader.Outcome) :
  Grader.grade h inputs output error = Return o ->
  (Grader.o_status o = st_pass <-> Grader.o_message o = None).
Proof.
  unfold Grader.grade.
  destruct (parseGradleTestResults output) as [tree |]; simpl bind;
    [| discriminate].
  destruct (Grader.countPassedTests tree (0, 0)) as [taskCount taskPassed].
  destruct (0 <? taskCount)%nat.
  - destruct (JS.strict_eq _ _); destruct (JS.lt _ _);
      intros E; injection E as <-; simpl; split; congruence.
  - destruct error as [m |]; simpl Grader.error_truthy.
    + destruct (JS.truthy m).
      * intros E; injection E as <-; simpl; split; congruence.
      * destruct (compareOutput _ _ _ _) as [[|] |]; simpl;
          try discriminate; intros E; injection E as <-; simpl; split;
          congruence.
    + destruct (compareOutput _ _ _ _) as [[|] |]; simpl;
        try discriminate; intros E; injection E as <-; simpl; split;
        congruence.
Qed.

Lemma main_js_grade_message (h : Host) (inputs : MainJs.Inputs)
  (output error : option string) (o : MainJs.Outcome) :
  MainJs.grade h inputs output error = Return o ->
  (MainJs.o_status o = st_pass <-> MainJs.o_message o = None).
Proof.
  rewrite main_js_grade_cases.
  destruct error as [m |]; simpl Grader.error_truthy;
    [destruct (JS.truthy m);
     [intros E; injection E as <-; simpl; split; congruence |] |];
    (destruct (MainJs.compare _ _ _ _) as [[|] |]; simpl;
     [ destruct (MainJs.parse output); simpl; [| discriminate];
       destruct (JS.strict_eq _ _); intros E; injection E as <-; simpl;
       split; congruence
     | intros E; injection E as <-; simpl; split; congruence
     | discriminate ]).
Qed.

Lemma error_result_shape (testName command input : option string)
  (e : Thrown) :
  envelope_shape (error_result testName command input e).
Proof.
  unfold envelope_shape, error_result. simpl. split; [reflexivity |].
  eexists. split; [reflexivity |].
  repeat split; simpl; intros; solve [discriminate | reflexivity].
Qed.

(** X16: every envelope that a run of either version sets as its output
    has the version 1 and one test with the status of the whole, the
    empty file name and the line 0; its message is [null] exactly when
    the status is ['pass'], and it has a score exactly when it has a
    maximal score, which only the envelope of the catch path lacks. *)
Theorem every_envelope_has_the_shape (h : Host) (r : Result) :
  Grader.emitted h = [("result", r)] \/ MainJs.emitted h = [("result", r)] ->
  envelope_shape r.
Proof.
  intros [Hr | Hr]; revert Hr.
  - unfold Grader.emitted, Grader.run, try_catch.
    rewrite grader_run_try_cases.
    destruct (Grader.getInputs h) as [inputs | e];
      [| simpl; intros E; injection E as <-; apply error_result_shape].
    destruct (Grader.run_setup h inputs) as [[] | e];
      [| simpl; intros E; injection E as <-; apply error_result_shape].
    cbv zeta. destruct (Grader.grade _ _ _ _) as [o | e] eqn:Hg;
      [| simpl; intros E; injection E as <-; apply error_result_shape].
    simpl. intros E; injection E as <-.
    unfold envelope_shape, Grader.result_of. simpl. split; [reflexivity |].
    eexists. split; [reflexivity |]. simpl.
    repeat split; try discriminate;
      apply (grader_grade_message _ _ _ _ _ Hg).
  - unfold MainJs.emitted, MainJs.run, try_catch.
    rewrite main_js_run_try_cases.
    destruct (MainJs.getInputs h) as [inputs | e];
      [| simpl; intros E; injection E as <-; apply error_result_shape].
    destruct (MainJs.run_setup h inputs) as [[] | e];
      [| simpl; intros E; injection E as <-; apply error_result_shape].
    cbv zeta. destruct (MainJs.grade _ _ _ _) as [o | e] eqn:Hg;
      [| simpl; intros E; injection E as <-; apply error_result_shape].
    simpl. intros E; injection E as <-.
    unfold envelope_shape, MainJs.result_of. simpl. split; [reflexivity |].
    eexists. split; [reflexivity |]. simpl.
    repeat split; try discriminate;
      apply (main_js_grade_message _ _ _ _ _ Hg).
Qed.

Lemma every_envelope_has_the_shape_witness :
  envelope_shape
    (mkResult 1 st_fail (Some (JS.of_Z 10))
       [mkTestReport "unit" st_fail (Some "You need earn more score.")
          "gradle test <stdin>" "" 0
          (seconds_string (JS.div (JS.of_Z 1500) (JS.of_Z 1000)))
          (Some (JS.of_Z 7))]).
Proof.
  apply (every_envelope_has_the_shape lazy_host).
  left. vm_compute. reflexivity.
Defined.

(** ** The setup command *)

(** X17: when a setup command is configured and fails, the run of the
    version with hierarchy scoring ends in the envelope of the catch
    path with the message of that failure and the name, command and
    input of the test, whatever the test command would do; with no setup
    command, [execSync] is not called for a setup. *)
Theorem setup_failure_is_fatal (h : Host) (inputs : Grader.Inputs)
  (e : Thrown) :
  Grader.getInputs h = Return inputs ->
  (Grader.setupCommand inputs = "" ->
   Grader.run_setup h inputs = Return tt) /\
  (Grader.setupCommand inputs <> "" ->
   execSync h (Grader.setupCommand inputs)
     (mkExecOptions None (Grader.timeout inputs) true) = Throw e ->
   Grader.emitted h =
     [("result",
       mkResult 1 st_error None
         [mkTestReport (JS.or_else (Grader.testName inputs) "Unknown Test")
            st_error (Some (message e))
            (test_code_of
               (JS.or_else (Grader.command inputs) "Unknown Command")
               (Grader.input inputs))
            "" 0 number_zero None])]).
Proof.
  intros Hi. unfold Grader.run_setup. split.
  - intros ->. reflexivity.
  - intros Hne He. unfold Grader.emitted, Grader.run, try_catch.
    rewrite grader_run_try_cases, Hi. unfold Grader.run_setup.
    apply truthy_true in Hne. rewrite Hne, He. simpl.
    unfold error_result. simpl. repeat f_equal.
    unfold JS.or_else. destruct (Grader.input inputs); reflexivity.
Qed.

Lemma setup_failure_is_fatal_witness :
  Grader.emitted failing_setup_host =
    [("result",
      mkResult 1 st_error None
        [mkTestReport "unit" st_error
           (Some ("Command failed: npm install" ++ nl))
           "gradle test <stdin>" "" 0 number_zero None])].
Proof.
  destruct (setup_failure_is_fatal failing_setup_host
              (Grader.mkInputs "unit" "npm install" "gradle test" "" "" ""
                 (JS.of_Z 600000) JS.zero JS.zero)
              (mkThrown ("Command failed: npm install" ++ nl) None None))
    as [_ H]; [vm_compute; reflexivity |].
  rewrite H; [reflexivity | discriminate | reflexivity].
Defined.

(** ** Scoring the output of a failed command *)

(** X18: in the version with hierarchy scoring, a test command that
    fails after it wrote report lines is scored on those lines: with at
    least one leaf in the partial output the status is ['pass'] or
    ['fail'], never ['error'], the error message is not reported, and
    the outcome is the one of a command that succeeded with this
    output. *)
Theorem failed_command_with_leaves_is_scored
  (h : Host) (inputs : Grader.Inputs) (e : Thrown) (partial : string)
  (tree : object) :
  Grader.getInputs h = Return inputs ->
  Grader.run_setup h inputs = Return tt ->
  execSync h (Grader.command inputs)
    (test_options (Grader.input inputs) (Grader.timeout inputs)) = Throw e ->
  stdout e = Some partial ->
  parseGradleTestResults (JS.trim partial) = Return tree ->
  0 < taskCount_of tree ->
  exists o,
    Grader.emitted h = [("result", Grader.result_of h inputs o)] /\
    Grader.o_status o <> st_error /\
    (Grader.o_message o = None \/
     Grader.o_message o = Some "You need earn more score.") /\
    Grader.grade h inputs (JS.trim partial) None = Return o.
Proof.
  intros Hi Hs He Hout Hp Hpos.
  assert (Hr : grader_execution h inputs
               = Grader.mkExecutionResult (JS.trim partial)
                   (Some (if JS.includes (message e) "ETIMEDOUT"
                          then timeout_message else message e))).
  { unfold grader_execution, Grader.executeTest. rewrite He, Hout.
    reflexivity. }
  assert (Hg : forall error,
             exists o,
               Grader.grade h inputs (JS.trim partial) error = Return o /\
               Grader.o_status o <> st_error /\
               (Grader.o_message o = None \/
                Grader.o_message o = Some "You need earn more score.") /\
               Grader.grade h inputs (JS.trim partial) None = Return o).
  { intros error. unfold Grader.grade. rewrite Hp. simpl bind.
    unfold taskCount_of in Hpos.
    destruct (Grader.countPassedTests tree (0, 0)) as [tc tp].
    simpl in Hpos. apply Nat.ltb_lt in Hpos. rewrite Hpos.
    destruct (JS.strict_eq _ _); destruct (JS.lt _ _); eexists;
      (split; [reflexivity |]); simpl;
      (split; [discriminate |]); split; auto. }
  destruct (Hg (Some (if JS.includes (message e) "ETIMEDOUT"
                      then timeout_message else message e)))
    as (o & Hgo & Hst & Hmsg & Hnone).
  exists o. split; [| repeat split; assumption].
  apply grader_emitted_on_success; try assumption.
  rewrite Hr. exact Hgo.
Qed.

Lemma failed_command_with_leaves_is_scored_witness :
  Grader.emitted partial_report_host =
    [("result",
      mkResult 1 st_pass (Some (JS.of_Z 2))
        [mkTestReport "unit" st_pass None "gradle test <stdin>" "" 0
           (seconds_string (JS.div (JS.of_Z 1500) (JS.of_Z 1000)))
           (Some (JS.of_Z 2))])].
Proof.
  destruct (failed_command_with_leaves_is_scored partial_report_host
              (Grader.mkInputs "unit" "" "gradle test" "" "x" "exact"
                 (JS.of_Z 600000) JS.zero JS.zero)
              (mkThrown "spawnSync /bin/sh ETIMEDOUT"
                 (Some ("S > t0 PASSED" ++ nl ++ "S > t1 PASSED" ++ nl
                        ++ "S > "))
                 (Some "ETIMEDOUT"))
              ("S > t0 PASSED" ++ nl ++ "S > t1 PASSED" ++ nl ++ "S > ")
              [("S", VObject [("t0", VBool true); ("t1", VBool true)])])
    as (o & He & _ & _ & Hg);
    [vm_compute; reflexivity | vm_compute; reflexivity
    | vm_compute; reflexivity | reflexivity | vm_compute; reflexivity
    | vm_compute; lia |].
  rewrite He. vm_compute in Hg. injection Hg as <-. vm_compute. reflexivity.
Defined.

(** X19: in [src/main.js] a test command that fails with a message
    always ends in the status ['error'] with the score 0 and that
    message (the fixed one for a timeout), whatever it wrote before: its
    output is not parsed and not compared. *)
Theorem main_js_failed_command_is_an_error
  (h : Host) (inputs : MainJs.Inputs) (e : Thrown) :
  MainJs.getInputs h = Return inputs ->
  MainJs.run_setup h inputs = Return tt ->
  execSync h (MainJs.command inputs)
    (test_options (MainJs.input inputs) (MainJs.timeout inputs)) = Throw e ->
  message e <> "" ->
  MainJs.emitted h =
    [("result",
      mkResult 1 st_error (Some (MainJs.maxScore inputs))
        [mkTestReport (MainJs.testName inputs) st_error
           (Some (if JS.includes (message e) "ETIMEDOUT"
                  then timeout_message else message e))
           (test_code_of (MainJs.command inputs) (MainJs.input inputs))
           "" 0 (seconds_string (JS.div (elapsed h) (JS.of_Z 1000)))
           (Some JS.zero)])].
Proof.
  intros Hi Hs He Hne. unfold MainJs.emitted, MainJs.run, try_catch.
  rewrite main_js_run_try_cases, Hi, Hs. cbv zeta.
  unfold main_js_execution, MainJs.executeTest. rewrite He.
  simpl MainJs.output. simpl MainJs.error_field.
  rewrite main_js_grade_cases. simpl Grader.error_truthy.
  assert (Ht : JS.truthy (if JS.includes (message e) "ETIMEDOUT"
                          then timeout_message else message e) = true).
  { destruct (JS.includes _ _); [reflexivity |].
    apply truthy_true. exact Hne. }
  rewrite Ht. reflexivity.
Qed.

Lemma main_js_failed_command_is_an_error_witness :
  MainJs.emitted partial_report_host =
    [("result",
      mkResult 1 st_error (Some JS.zero)
        [mkTestReport "unit" st_error (Some timeout_message)
           "gradle test <stdin>" "" 0
           (seconds_string (JS.div (JS.of_Z 1500) (JS.of_Z 1000)))
           (Some JS.zero)])].
Proof.
  rewrite (main_js_failed_command_is_an_error partial_report_host
             (MainJs.mkInputs "unit" "" "gradle test" "" "x" "exact"
                (JS.of_Z 600000) JS.zero)
             (mkThrown "spawnSync /bin/sh ETIMEDOUT"
                (Some ("S > t0 PASSED" ++ nl ++ "S > t1 PASSED" ++ nl
                       ++ "S > "))
                (Some "ETIMEDOUT")));
    [reflexivity | vm_compute; reflexivity | vm_compute; reflexivity
    | vm_compute; reflexivity | discriminate].
Defined.

(** ** The fallback without report lines *)

Lemma grader_execution_returned (h : Host) (inputs : Grader.Inputs)
  (out : string) :
  execSync h (Grader.command inputs)
    (test_options (Grader.input inputs) (Grader.timeout inputs))
    = Return out ->
  grader_execution h inputs = Grader.mkExecutionResult (JS.trim out) None.
Proof.
  intros He. unfold grader_execution, Grader.executeTest. rewrite He.
  reflexivity.
Qed.

(** X20: in a run of the version with hierarchy scoring whose command
    succeeded with an output without leaf, an output that does not match
    gives the status ['fail'], the score 0, the configured maximal score
    and a message that quotes the expected and the actual output. *)
Theorem no_leaves_and_mismatch_gives_fail
  (h : Host) (inputs : Grader.Inputs) (out : string) (tree : object) :
  Grader.getInputs h = Return inputs ->
  Grader.run_setup h inputs = Return tt ->
  execSync h (Grader.command inputs)
    (test_options (Grader.input inputs) (Grader.timeout inputs))
    = Return out ->
  parseGradleTestResults (JS.trim out) = Return tree ->
  taskCount_of tree = 0 ->
  compareOutput h (JS.trim out) (Grader.expectedOutput inputs)
    (Grader.comparisonMethod inputs) = Return false ->
  Grader.emitted h =
    [("result",
      mkResult 1 st_fail (Some (Grader.maxScore inputs))
        [mkTestReport (Grader.testName inputs) st_fail
           (Some ("Output does not match expected: "
                  ++ Grader.expectedOutput inputs ++ " Got: " ++ JS.trim out))
           (test_code_of (Grader.command inputs) (Grader.input inputs))
           "" 0 (seconds_string (JS.div (elapsed h) (JS.of_Z 1000)))
           (Some JS.zero)])].
Proof.
  intros Hi Hs He Hp Hc Hm. unfold taskCount_of in Hc.
  destruct (Grader.countPassedTests tree (0, 0)) as [tc tp] eqn:Hcount.
  simpl in Hc. subst tc.
  assert (Hg : Grader.grade h inputs
                 (Grader.output (grader_execution h inputs))
                 (Grader.error_field (grader_execution h inputs))
               = Return (Grader.mkOutcome st_fail
                           (Some ("Output does not match expected: "
                                  ++ Grader.expectedOutput inputs
                                  ++ " Got: " ++ JS.trim out))
                           (Grader.maxScore inputs) (Grader.passScore inputs)
                           JS.zero 0 tp)).
  { rewrite (grader_execution_returned _ _ _ He). simpl.
    rewrite (grader_grade_without_leaves _ _ _ _ _ _ Hp Hcount). simpl.
    rewrite Hm. reflexivity. }
  rewrite (grader_emitted_on_success h inputs _ Hi Hs Hg). reflexivity.
Qed.

Lemma no_leaves_and_mismatch_gives_fail_witness :
  Grader.emitted mismatch_host =
    [("result",
      mkResult 1 st_fail (Some (JS.of_Z 5))
        [mkTestReport "io" st_fail
           (Some "Output does not match expected: 42 Got: 41")
           "./a.out <stdin>" "" 0
           (seconds_string (JS.div (JS.of_Z 1500) (JS.of_Z 1000)))
           (Some JS.zero)])].
Proof.
  rewrite (no_leaves_and_mismatch_gives_fail mismatch_host
             (Grader.mkInputs "io" "" "./a.out" "" "42" "exact"
                (JS.of_Z 600000) (JS.of_Z 4) (JS.of_Z 5))
             "41" []);
    [reflexivity | vm_compute; reflexivity | vm_compute; reflexivity
    | vm_compute; reflexivity | vm_compute; reflexivity
    | vm_compute; reflexivity | vm_compute; reflexivity].
Defined.

(** X21: the version with hierarchy scoring accepts an unset comparison
    method, and then a run whose command succeeded with an output
    without leaf ends in the envelope of the catch path with the message
    ["Invalid comparison method: "]: without report lines the comparison
    method is required. *)
Theorem no_leaves_and_no_method_is_an_error
  (h : Host) (inputs : Grader.Inputs) (out : string) (tree : object) :
  Grader.getInputs h = Return inputs ->
  Grader.run_setup h inputs = Return tt ->
  execSync h (Grader.command inputs)
    (test_options (Grader.input inputs) (Grader.timeout inputs))
    = Return out ->
  parseGradleTestResults (JS.trim out) = Return tree ->
  taskCount_of tree = 0 ->
  Grader.comparisonMethod inputs = "" ->
  Grader.emitted h =
    [("result",
      mkResult 1 st_error None
        [mkTestReport (JS.or_else (Grader.testName inputs) "Unknown Test")
           st_error (Some "Invalid comparison method: ")
           (test_code_of
              (JS.or_else (Grader.command inputs) "Unknown Command")
              (Grader.input inputs))
           "" 0 number_zero None])].
Proof.
  intros Hi Hs He Hp Hc Hm. unfold taskCount_of in Hc.
  destruct (Grader.countPassedTests tree (0, 0)) as [tc tp] eqn:Hcount.
  simpl in Hc. subst tc.
  unfold Grader.emitted, Grader.run, try_catch.
  rewrite grader_run_try_cases, Hi, Hs. cbv zeta.
  rewrite (grader_execution_returned _ _ _ He). simpl Grader.output.
  simpl Grader.error_field.
  rewrite (grader_grade_without_leaves _ _ _ _ _ _ Hp Hcount).
  simpl Grader.error_truthy. cbv iota. rewrite Hm.
  unfold compareOutput. simpl. unfold error_result. simpl.
  repeat f_equal. unfold JS.or_else.
  destruct (Grader.input inputs); reflexivity.
Qed.

Lemma no_leaves_and_no_method_is_an_error_witness :
  Grader.emitted no_method_host =
    [("result",
      mkResult 1 st_error None
        [mkTestReport "io" st_error (Some "Invalid comparison method: ")
           "./a.out <stdin>" "" 0 number_zero None])].
Proof.
  rewrite (no_leaves_and_no_method_is_an_error no_method_host
             (Grader.mkInputs "io" "" "./a.out" "" "42" ""
                (JS.of_Z 600000) JS.zero JS.zero)
             "42" []);
    [reflexivity | vm_compute; reflexivity | vm_compute; reflexivity
    | vm_compute; reflexivity | vm_compute; reflexivity
    | vm_compute; reflexivity | reflexivity].
Defined.

(** ** The score of [src/main.js] *)

(** X22: an envelope of [src/main.js] with the status ['pass'] never
    carries the configured maximal score as its score: with the maximal
    score 0 the score and the maximal score are 0, and with any other
    maximal score the score is [0 / 0], which is [NaN]. *)
Theorem main_js_pass_score_is_zero_or_nan (h : Host) (r : Result) :
  MainJs.emitted h = [("result", r)] ->
  status r = st_pass ->
  exists inputs t,
    MainJs.getInputs h = Return inputs /\
    tests r = [t] /\
    (JS.strict_eq (MainJs.maxScore inputs) JS.zero = true ->
     max_score r = Some JS.zero /\ score t = Some JS.zero) /\
    (JS.strict_eq (MainJs.maxScore inputs) JS.zero = false ->
     max_score r = Some (MainJs.maxScore inputs) /\
     score t = Some JS.NaN).
Proof.
  unfold MainJs.emitted, MainJs.run, try_catch.
  rewrite main_js_run_try_cases.
  destruct (MainJs.getInputs h) as [inputs | e];
    [| simpl; intros E; injection E as <-; discriminate].
  destruct (MainJs.run_setup h inputs) as [[] | e];
    [| simpl; intros E; injection E as <-; discriminate].
  cbv zeta. rewrite main_js_grade_cases.
  destruct (Grader.error_truthy _);
    [simpl; intros E; injection E as <-; discriminate |].
  destruct (MainJs.compare h _ _ _) as [[|] | e]; simpl;
    [| intros E; injection E as <-; discriminate
     | intros E; injection E as <-; discriminate].
  destruct (MainJs.parse _) as [tree | e]; simpl;
    [| intros E; injection E as <-; discriminate].
  destruct (JS.strict_eq (MainJs.maxScore inputs) JS.zero) eqn:Hz; simpl;
    intros E _; injection E as <-; simpl;
    eexists; eexists; (split; [reflexivity |]); (split; [reflexivity |]);
    split; intros; try congruence; split; reflexivity.
Qed.

Lemma main_js_pass_score_is_zero_or_nan_witness :
  exists inputs t,
    MainJs.getInputs exact_host = Return inputs /\
    [mkTestReport "io" st_pass None "./a.out <stdin>" "" 0
       (seconds_string (JS.div (JS.of_Z 1500) (JS.of_Z 1000)))
       (Some JS.NaN)] = [t] /\
    score t = Some JS.NaN.
Proof.
  destruct (main_js_pass_score_is_zero_or_nan exact_host
              (mkResult 1 st_pass (Some (JS.of_Z 5))
                 [mkTestReport "io" st_pass None "./a.out <stdin>" "" 0
                    (seconds_string (JS.div (JS.of_Z 1500) (JS.of_Z 1000)))
                    (Some JS.NaN)]))
    as (inputs & t & Hi & Ht & _ & Hnan);
    [vm_compute; reflexivity | reflexivity |].
  exists inputs, t. split; [exact Hi |]. split; [exact Ht |].
  simpl in Ht. injection Ht as <-. reflexivity.
Defined.

(** ** The process runner *)

(** X23: the output that [executeTest] of the version with hierarchy
    scoring returns is trimmed, whether the command succeeded or failed,
    and the result has an error exactly when [execSync] threw. *)
Theorem executeTest_output_is_trimmed (h : Host) (command input : string)
  (timeout : JS.number) :
  let r := Grader.executeTest h command input timeout in
  JS.trim (Grader.output r) = Grader.output r /\
  (Grader.error_field r = None <->
   exists out, execSync h command (test_options input timeout) = Return out).
Proof.
  unfold Grader.executeTest.
  destruct (execSync h command (test_options input timeout)) as [out | e];
    simpl.
  - split; [apply trim_idempotent |].
    split; [intros _; eexists; reflexivity | reflexivity].
  - split; [destruct (stdout e); [apply trim_idempotent | reflexivity] |].
    split; [discriminate | intros [out E]; discriminate].
Qed.

(** ** Reports without nesting *)

Lemma all_chars_append (p : ascii -> bool) (a b : string) :
  all_chars p (a ++ b) = all_chars p a && all_chars p b.
Proof.
  induction a as [| c a IH]; [reflexivity |].
  simpl. rewrite IH. apply andb_assoc.
Qed.

Lemma no_separator_skip_spaces (s : string) :
  no_separator s = true -> no_separator (skip_spaces s) = true.
Proof.
  unfold no_separator. induction s as [| c t IH]; [reflexivity |].
  simpl. intros H. apply andb_prop in H. destruct H as [Hc Ht].
  destruct (JS.is_space c); [exact (IH Ht) |].
  simpl. rewrite Hc, Ht. reflexivity.
Qed.

Lemma no_separator_length (s : string) :
  no_separator s = true -> separator_length s = None.
Proof.
  destruct s as [| c t]; [reflexivity |].
  unfold no_separator. simpl. intros H. apply andb_prop in H.
  destruct H as [_ Ht]. destruct (JS.is_space c); [| reflexivity].
  pose proof (no_separator_skip_spaces t Ht) as Hs. unfold no_separator in Hs.
  destruct (skip_spaces t) as [| d u]; [reflexivity |].
  simpl in Hs. apply andb_prop in Hs. destruct Hs as [Hd _].
  destruct (Ascii.eqb_spec d ">"%char) as [-> | Hne]; [discriminate |].
  destruct d as [[|] [|] [|] [|] [|] [|] [|] [|]]; try reflexivity.
  contradiction Hne. reflexivity.
Qed.

Lemma split_without_separator (s : string) :
  no_separator s = true -> split_hierarchy s = [s].
Proof.
  unfold split_hierarchy. induction s as [| c t IH]; [reflexivity |].
  intros H. cbn [split_from]. rewrite (no_separator_length _ H).
  unfold no_separator in H. simpl in H. apply andb_prop in H.
  destruct H as [_ Ht]. rewrite (IH Ht). reflexivity.
Qed.

Lemma flat_set (tests : object) (key : string) (b : bool) :
  flat tests -> flat (set tests key (VBool b)).
Proof.
  intros H. apply Forall_set; [| exact H]. intros k. exists b. reflexivity.
Qed.

Lemma parse_line_without_separator (tests : object) (line : string) :
  no_separator (JS.trim line) = true ->
  parse_line tests line = Return tests \/
  exists key b, parse_line tests line = Return (set tests key (VBool b)).
Proof.
  intros Hn. unfold parse_line.
  destruct (line_match (JS.trim line)) as [[g1 g2] |] eqn:Hm;
    [| left; reflexivity].
  right. exists g1, (String.eqb g2 "PASSED").
  destruct (line_match_sound _ _ _ Hm) as (before & t & Heq & Hh & _).
  destruct (match_here_sound _ _ _ Hh) as (spaces & r & -> & _).
  rewrite Heq in Hn. unfold no_separator in Hn.
  rewrite !all_chars_append in Hn.
  apply andb_prop in Hn. destruct Hn as [_ Hn].
  apply andb_prop in Hn. destruct Hn as [Hg1 _].
  rewrite (split_without_separator g1 Hg1). reflexivity.
Qed.

(** X24: a report none of whose lines has a [>] is parsed without an
    error, and every value of its tree is a leaf under the root: a line
    without separator sets one key of the root, whatever that key held
    before. *)
Theorem flat_report_is_parsed (testResults : string) :
  (forall line,
      In line (JS.split_newline testResults) ->
      no_separator (JS.trim line) = true) ->
  exists tree,
    parseGradleTestResults testResults = Return tree /\ flat tree.
Proof.
  unfold parseGradleTestResults.
  assert (H : forall lines tests,
             flat tests ->
             (forall line, In line lines ->
                           no_separator (JS.trim line) = true) ->
             exists tree, parse_lines lines tests = Return tree /\ flat tree).
  { induction lines as [| line rest IH]; intros tests Hflat Hall.
    - exists tests. split; [reflexivity | exact Hflat].
    - simpl.
      destruct (parse_line_without_separator tests line
                  (Hall line (or_introl eq_refl)))
        as [Hl | (key & b & Hl)]; rewrite Hl; simpl bind; apply IH;
        try (intros l Hin; apply Hall; right; exact Hin);
        [exact Hflat | apply flat_set; exact Hflat]. }
  intros Hall. apply H; [constructor | exact Hall].
Qed.

Lemma flat_report_is_parsed_witness :
  exists tree,
    parseGradleTestResults ("a PASSED" ++ nl ++ "log line" ++ nl ++ "b FAILED")
      = Return tree /\ flat tree.
Proof.
  apply (flat_report_is_parsed
           ("a PASSED" ++ nl ++ "log line" ++ nl ++ "b FAILED")).
  intros line [<- | [<- | [<- | []]]]; reflexivity.
Defined.

(** ** A maximal score that is no number *)

Lemma mul_NaN (x : JS.number) : JS.mul x JS.NaN = JS.NaN.
Proof. destruct x; reflexivity. Qed.

Lemma lt_NaN (x : JS.number) : JS.lt JS.NaN x = false.
Proof. reflexivity. Qed.

(** X25: when the [max-score] input is no number ([parseInt] gives
    [NaN]), a run of the version with hierarchy scoring whose tree has a
    leaf has the status ['pass'] with the score and the maximal score
    [NaN], whatever the leaves and the pass score are: no comparison
    with [NaN] holds. *)
Theorem nan_max_score_always_passes
  (h : Host) (inputs : Grader.Inputs) (tree : object) :
  Grader.getInputs h = Return inputs ->
  Grader.run_setup h inputs = Return tt ->
  parseGradleTestResults (Grader.output (grader_execution h inputs))
    = Return tree ->
  0 < taskCount_of tree ->
  configured h "max-score" = JS.NaN ->
  Grader.emitted h =
    [("result",
      mkResult 1 st_pass (Some JS.NaN)
        [mkTestReport (Grader.testName inputs) st_pass None
           (test_code_of (Grader.command inputs) (Grader.input inputs))
           "" 0 (seconds_string (JS.div (elapsed h) (JS.of_Z 1000)))
           (Some JS.NaN)])].
Proof.
  intros Hi Hs Hp Hpos Hnan.
  destruct (grader_getInputs_scores h inputs Hi) as [Hmax _].
  rewrite Hnan in Hmax. unfold taskCount_of in Hpos.
  destruct (Grader.countPassedTests tree (0, 0)) as [tc tp] eqn:Hc.
  simpl in Hpos.
  destruct (grader_grade_with_leaves h inputs _
              (Grader.error_field (grader_execution h inputs)) _ _ _
              Hp Hc Hpos)
    as (o & Hg & _ & _ & Hst & _ & Hweighted).
  rewrite Hmax in Hweighted.
  destruct (Hweighted eq_refl) as (Hm & _ & Hsc).
  rewrite mul_NaN in Hsc. rewrite Hsc, lt_NaN in Hst.
  rewrite (grader_emitted_on_success h inputs o Hi Hs Hg).
  unfold Grader.result_of. rewrite Hst, Hm, Hsc.
  assert (Hmsg : Grader.o_message o = None).
  { apply (grader_grade_message _ _ _ _ _ Hg). exact Hst. }
  rewrite Hmsg. reflexivity.
Qed.

Lemma nan_max_score_always_passes_witness :
  Grader.emitted nan_host =
    [("result",
      mkResult 1 st_pass (Some JS.NaN)
        [mkTestReport "unit" st_pass None "gradle test <stdin>" "" 0
           (seconds_string (JS.div (JS.of_Z 1500) (JS.of_Z 1000)))
           (Some JS.NaN)])].
Proof.
  rewrite (nan_max_score_always_passes nan_host
             (Grader.mkInputs "unit" "" "gradle test" "" "" ""
                (JS.of_Z 600000) (JS.of_Z 8) JS.NaN)
             [("S", VObject [("t0", VBool false)])]);
    [reflexivity | vm_compute; reflexivity | vm_compute; reflexivity
    | vm_compute; reflexivity | vm_compute; lia | vm_compute; reflexivity].
Defined.
